(** * AthenaQueryClient: a shallow embedding of [src/athena-query-client.ts]

    The client submits a query to Athena, polls the execution until it
    reaches a terminal state, fetches the result pages and reshapes the
    rows into objects keyed by the names of the header row.

    JavaScript objects used as string-keyed maps are stdpp [gmap]s; the
    service behind [client.send] is a script of responses held in an
    explicit world, together with the trace of what the client did. *)

From stdpp Require Import base option list strings gmap fin_maps.

Open Scope string_scope.
Open Scope list_scope.

(** ** Values of the JavaScript runtime *)

(** What a [throw] (or a rejected promise) carries.  [Error] is
    [new Error(message)]; [TypeError] is what the runtime raises when a
    property of [undefined] is read (its message depends on the engine and
    is not modelled); [ServiceException] is a rejection coming out of
    [client.send], with the name and the message the SDK gave it. *)
Inductive Exception : Type :=
  | Error (message : string)
  | TypeError
  | ServiceException (name : string) (message : string).

(** [e.name]: the name of the class of the thrown error. *)
Definition name (e : Exception) : string :=
  match e with
  | Error _ => "Error"
  | TypeError => "TypeError"
  | ServiceException n _ => n
  end.

(** [e.message], where the model has it. *)
Definition message (e : Exception) : option string :=
  match e with
  | Error m => Some m
  | TypeError => None
  | ServiceException _ m => Some m
  end.

(** Truthiness of a [string | undefined]: [undefined] and the empty string
    are falsy. *)
Definition truthy (v : option string) : bool :=
  match v with
  | Some s => negb (String.eqb s "")
  | None => false
  end.

(** A [string | undefined] used as a property name or inside a template
    literal: [undefined] is converted to the string ["undefined"]. *)
Definition toPropertyKey (v : option string) : string :=
  match v with
  | Some s => s
  | None => "undefined"
  end.

(** [array.forEach((item, i) => ...)] with the state the callback mutates
    passed along explicitly. *)
Fixpoint forEach_from {A St : Type} (callback : St -> A -> nat -> St)
    (i : nat) (array : list A) (st : St) : St :=
  match array with
  | [] => st
  | item :: rest => forEach_from callback (S i) rest (callback st item i)
  end.

Definition forEach {A St : Type} (callback : St -> A -> nat -> St)
    (array : list A) (st : St) : St :=
  forEach_from callback 0 array st.

(** ** Result sets *)

(** Modelled from the spec: the SDK's [Datum] and [Row] declarations are not
    part of the sources; a raw row is an ordered sequence of optional string
    values. *)
Record Datum : Type := { VarCharValue : option string }.
Record Row : Type := { Data : list Datum }.

(** The objects built by [mapData]: the own properties of an object created
    by [{}], with their string values. *)
Abbreviation MappedObject := (gmap string string).

(** [columns[i]] reads past the end of the array as [undefined]. *)
Definition column (columns : list (option string)) (i : nat) : option string :=
  mjoin (columns !! i).

(** [mappedObject[key] = value] with a string [value], on an object whose
    prototype is [Object.prototype]: the name [__proto__] is the accessor
    inherited from the prototype, whose setter ignores a string, so the
    assignment creates no own property; any other name becomes (or stays)
    an own property holding [value]. *)
Definition assign (mappedObject : MappedObject) (key value : string) : MappedObject :=
  if String.eqb key "__proto__" then mappedObject
  else <[key := value]> mappedObject.

(** The body of the inner [forEach] of [mapData]. *)
Definition setField (columns : list (option string))
    (mappedObject : MappedObject) (value : Datum) (i : nat) : MappedObject :=
  let key := toPropertyKey (column columns i) in
  match VarCharValue value with
  | Some s =>
      if truthy (Some s) then assign mappedObject key s
      else assign mappedObject key ""
  | None => assign mappedObject key ""
  end.

(** One iteration of the outer [forEach] for a data row. *)
Definition mapItem (columns : list (option string)) (item : Row) : MappedObject :=
  forEach (setField columns) (Data item) ∅.

Definition mapData (Rows : list Row) : Exception + list MappedObject :=
  match Rows with
  | [] => inl TypeError
  | header :: _ =>
      let columns := map VarCharValue (Data header) in
      inr (forEach
             (fun mappedData item i =>
                if Nat.eqb i 0 then mappedData
                else mappedData ++ [mapItem columns item])
             Rows [])
  end.

(** ** The service and the world *)

(** Modelled from the spec: the SDK's [QueryExecutionState] enumeration is
    not part of the sources; a status is one of these five states. *)
Inductive QueryExecutionState : Type :=
  QUEUED | RUNNING | SUCCEEDED | FAILED | CANCELLED.

Record ResultReuseByAge : Type :=
  { Enabled : bool; MaxAgeInMinutes : option Z }.

Record ResultReuseConfiguration : Type :=
  { ResultReuseByAgeConfiguration : ResultReuseByAge }.

(** The configuration handed to the constructor.  [ClientConfig] only
    parametrises the connection, which the world below stands for. *)
Record AthenaQueryClientConfig : Type :=
  { config_Database : string;
    config_Catalog : string;
    config_WorkGroup : option string;
    config_ResultReuseConfiguration : option ResultReuseConfiguration }.

Record AthenaQueryClient : Type :=
  { database : string;
    catalog : string;
    workGroup : string;
    resultReuseConfiguration : ResultReuseConfiguration }.

Record QueryExecutionContext : Type :=
  { Database : string; Catalog : string }.

Record StartQueryExecutionInput : Type :=
  { QueryString : string;
    input_QueryExecutionContext : QueryExecutionContext;
    WorkGroup : string;
    input_ResultReuseConfiguration : ResultReuseConfiguration }.

(** Modelled from the spec: the SDK's command and output declarations are not
    part of the sources; the three operations are Submit, GetStatus (a state
    and an optional reason) and GetResultsPage (rows and an optional
    continuation token). *)
Inductive Command : Type :=
  | StartQueryExecutionCommand (input : StartQueryExecutionInput)
  | GetQueryExecutionCommand (QueryExecutionId : string)
  | GetQueryResultsCommand (QueryExecutionId : string) (NextToken : option string).

Record StartQueryExecutionOutput : Type :=
  { QueryExecutionId : string }.

Record GetQueryExecutionOutput : Type :=
  { State : QueryExecutionState; StateChangeReason : option string }.

Record ResultSet : Type := { Rows : option (list Row) }.

Record GetQueryResultsOutput : Type :=
  { output_ResultSet : option ResultSet; NextToken : option string }.

(** What the client does that the outside can see. *)
Inductive Event : Type :=
  | Sent (command : Command)
  | Timeout (msTime : Z).

(** The service is a script: every [send] takes the next response scripted
    for its kind of command, which is an output or a rejection.  The trace
    is in chronological order. *)
Record World : Type :=
  { submissions : list (Exception + StartQueryExecutionOutput);
    executions : list (Exception + GetQueryExecutionOutput);
    results : list (Exception + GetQueryResultsOutput);
    trace : list Event }.

Definition log (e : Event) (w : World) : World :=
  {| submissions := submissions w; executions := executions w;
     results := results w; trace := trace w ++ [e] |}.

(** ** Asynchronous computations *)

Inductive Outcome (A : Type) : Type :=
  | Returned (a : A)
  | Thrown (e : Exception)
  | OutOfFuel.
Arguments Returned {A} a.
Arguments Thrown {A} e.
Arguments OutOfFuel {A}.

Definition Async (A : Type) : Type := World -> Outcome A * World.

Definition ret {A : Type} (a : A) : Async A := fun w => (Returned a, w).
Definition throw {A : Type} (e : Exception) : Async A := fun w => (Thrown e, w).
Definition outOfFuel {A : Type} : Async A := fun w => (OutOfFuel, w).

Definition bind {A B : Type} (m : Async A) (k : A -> Async B) : Async B :=
  fun w =>
    match m w with
    | (Returned a, w') => k a w'
    | (Thrown e, w') => (Thrown e, w')
    | (OutOfFuel, w') => (OutOfFuel, w')
    end.

Notation "x <- m ;; k" := (bind m (fun x => k))
  (at level 100, m at next level, right associativity).

(** A settled promise: the scripted response, or the rejection of a service
    whose script has run out. *)
Definition settle {A : Type} (response : option (Exception + A)) (w : World)
    : Outcome A * World :=
  match response with
  | Some (inr output) => (Returned output, w)
  | Some (inl e) => (Thrown e, w)
  | None => (Thrown (ServiceException "ServiceUnavailable" "no response"), w)
  end.

Definition sendStartQueryExecution (input : StartQueryExecutionInput)
    : Async StartQueryExecutionOutput :=
  fun w =>
    settle (head (submissions w))
      {| submissions := tail (submissions w); executions := executions w;
         results := results w;
         trace := trace w ++ [Sent (StartQueryExecutionCommand input)] |}.

Definition sendGetQueryExecution (id : string) : Async GetQueryExecutionOutput :=
  fun w =>
    settle (head (executions w))
      {| submissions := submissions w; executions := tail (executions w);
         results := results w;
         trace := trace w ++ [Sent (GetQueryExecutionCommand id)] |}.

Definition sendGetQueryResults (id : string) (token : option string)
    : Async GetQueryResultsOutput :=
  fun w =>
    settle (head (results w))
      {| submissions := submissions w; executions := executions w;
         results := tail (results w);
         trace := trace w ++ [Sent (GetQueryResultsCommand id token)] |}.

(** [this.timeout(msTime)]: the promise resolves after [msTime] ms. *)
Definition timeout (msTime : Z) : Async unit :=
  fun w => (Returned tt, log (Timeout msTime) w).

(** ** The client *)

Definition defaultResultReuseConfiguration : ResultReuseConfiguration :=
  {| ResultReuseByAgeConfiguration :=
       {| Enabled := true; MaxAgeInMinutes := Some 60%Z |} |}.

Definition constructor (config : AthenaQueryClientConfig) : AthenaQueryClient :=
  {| database := config_Database config;
     catalog := config_Catalog config;
     workGroup :=
       match config_WorkGroup config with
       | Some workGroup => if truthy (Some workGroup) then workGroup else "primary"
       | None => "primary"
       end;
     resultReuseConfiguration :=
       match config_ResultReuseConfiguration config with
       | Some configuration => configuration
       | None => defaultResultReuseConfiguration
       end |}.

(** [ResultSet?.Rows || []]. *)
Definition rowsOf (output : GetQueryResultsOutput) : list Row :=
  match output_ResultSet output with
  | Some resultSet => default [] (Rows resultSet)
  | None => []
  end.

(** [...(nextToken && { NextToken: nextToken })]: the request carries
    [NextToken] only when [nextToken] is truthy. *)
Definition requestToken (nextToken : option string) : option string :=
  if truthy nextToken then nextToken else None.

(** The [do ... while (nextToken)] loop of [getQueryResults]. *)
Fixpoint fetchPages (fuel : nat) (id : string) (nextToken : option string)
    (allRows : list Row) : Async (list Row) :=
  match fuel with
  | 0 => outOfFuel
  | S fuel' =>
      output <- sendGetQueryResults id (requestToken nextToken) ;;
      let allRows := allRows ++ rowsOf output in
      let nextToken := NextToken output in
      if truthy nextToken then fetchPages fuel' id nextToken allRows
      else ret allRows
  end.

Definition getQueryResults (fuel : nat) (id : string) : Async (list MappedObject) :=
  allRows <- fetchPages fuel id None [] ;;
  match mapData allRows with
  | inr mappedData => ret mappedData
  | inl e => throw e
  end.

Fixpoint checkQueryExequtionStateAndGetData (fuel : nat) (id : string)
    : Async (list MappedObject) :=
  match fuel with
  | 0 => outOfFuel
  | S fuel' =>
      response <- sendGetQueryExecution id ;;
      match State response with
      | QUEUED | RUNNING =>
          _ <- timeout 1000 ;;
          checkQueryExequtionStateAndGetData fuel' id
      | SUCCEEDED => getQueryResults fuel' id
      | FAILED =>
          throw (Error ("Query failed: " +:+
                        toPropertyKey (StateChangeReason response)))
      | CANCELLED => throw (Error "Query was cancelled")
      end
  end.

Definition query (this : AthenaQueryClient) (fuel : nat) (sqlQuery : string)
    : Async (list MappedObject) :=
  let queryExecutionInput :=
    {| QueryString := sqlQuery;
       input_QueryExecutionContext :=
         {| Database := database this; Catalog := catalog this |};
       WorkGroup := workGroup this;
       input_ResultReuseConfiguration := resultReuseConfiguration this |} in
  output <- sendStartQueryExecution queryExecutionInput ;;
  checkQueryExequtionStateAndGetData fuel (QueryExecutionId output).

(** ** Vocabulary of the statements *)

(** The string a cell contributes: its value when present, the empty
    string otherwise. *)
Definition valueOrEmpty (value : Datum) : string :=
  default "" (VarCharValue value).

(** The name a row's cell at position [i] is stored under. *)
Definition fieldName (header : Row) (i : nat) : string :=
  toPropertyKey (column (map VarCharValue (Data header)) i).

Definition fetches (id : string) (tokens : list (option string)) : list Event :=
  map (fun token => Sent (GetQueryResultsCommand id token)) tokens.

Definition nonTerminal (state : QueryExecutionState) : bool :=
  match state with
  | QUEUED | RUNNING => true
  | SUCCEEDED | FAILED | CANCELLED => false
  end.

(** The events of [n] polls that each saw a non-terminal state. *)
Definition waits (id : string) (n : nat) : list Event :=
  concat (replicate n [Sent (GetQueryExecutionCommand id); Timeout 1000]).

Definition submission (this : AthenaQueryClient) (sqlQuery : string)
    : StartQueryExecutionInput :=
  {| QueryString := sqlQuery;
     input_QueryExecutionContext :=
       {| Database := database this; Catalog := catalog this |};
     WorkGroup := workGroup this;
     input_ResultReuseConfiguration := resultReuseConfiguration this |}.

Definition isFetch (e : Event) : bool :=
  match e with
  | Sent (GetQueryResultsCommand _ _) => true
  | _ => false
  end.

Definition isSubmission (e : Event) : bool :=
  match e with
  | Sent (StartQueryExecutionCommand _) => true
  | _ => false
  end.

(** The time the trace shows the client suspended, in ms. *)
Fixpoint waited (events : list Event) : Z :=
  match events with
  | [] => 0%Z
  | Timeout msTime :: rest => (msTime + waited rest)%Z
  | Sent _ :: rest => waited rest
  end.

(** ** Sample data *)

Definition cell (s : string) : Datum := {| VarCharValue := Some s |}.
Definition absent : Datum := {| VarCharValue := None |}.
Definition row (cells : list Datum) : Row := {| Data := cells |}.

Definition page (rows : list Row) (token : option string) : GetQueryResultsOutput :=
  {| output_ResultSet := Some {| Rows := Some rows |}; NextToken := token |}.

Definition status (state : QueryExecutionState) (reason : option string)
    : GetQueryExecutionOutput :=
  {| State := state; StateChangeReason := reason |}.

Definition scripted (executions : list (Exception + GetQueryExecutionOutput))
    (results : list (Exception + GetQueryResultsOutput)) : World :=
  {| submissions := [inr {| QueryExecutionId := "q-1" |}];
     executions := executions; results := results; trace := [] |}.

Definition client : AthenaQueryClient :=
  constructor {| config_Database := "logs"; config_Catalog := "AwsDataCatalog";
                 config_WorkGroup := None;
                 config_ResultReuseConfiguration := None |}.

(** * Properties of the row mapper *)

Section RowMapper.

Variable columns : list (option string).

Lemma setField_assign (o : MappedObject) (value : Datum) (i : nat) :
  setField columns o value i
  = assign o (toPropertyKey (column columns i)) (valueOrEmpty value).
Proof.
  unfold setField, valueOrEmpty.
  destruct (VarCharValue value) as [s|]; simpl; [|reflexivity].
  destruct (String.eqb_spec s ""); simpl; congruence.
Qed.

Lemma assign_lookup_eq (o : MappedObject) (key value : string) :
  key <> "__proto__" -> assign o key value !! key = Some value.
Proof.
  intros Hkey. unfold assign.
  destruct (String.eqb_spec key "__proto__"); [contradiction|].
  apply lookup_insert_eq.
Qed.

Lemma assign_lookup_ne (o : MappedObject) (key value k : string) :
  key <> k -> assign o key value !! k = o !! k.
Proof.
  intros Hkey. unfold assign.
  destruct (String.eqb key "__proto__"); [reflexivity|].
  apply lookup_insert_ne. exact Hkey.
Qed.

Lemma assign_proto (o : MappedObject) (key value : string) :
  key = "__proto__" -> assign o key value = o.
Proof. intros ->. reflexivity. Qed.

Lemma assign_insert (o : MappedObject) (key value : string) :
  key <> "__proto__" -> assign o key value = <[key := value]> o.
Proof.
  intros Hkey. unfold assign.
  destruct (String.eqb_spec key "__proto__"); [contradiction|reflexivity].
Qed.

(** Names that no remaining cell is stored under keep their value. *)
Lemma forEach_setField_other (cells : list Datum) :
  forall (i : nat) (o : MappedObject) (k : string),
    (forall n, n < length cells -> toPropertyKey (column columns (i + n)) <> k) ->
    forEach_from (setField columns) i cells o !! k = o !! k.
Proof.
  induction cells as [|value rest IH]; intros i o k Hk; simpl; [reflexivity|].
  rewrite IH.
  - rewrite setField_assign, assign_lookup_ne; [reflexivity|].
    specialize (Hk 0). rewrite Nat.add_0_r in Hk. apply Hk. simpl. lia.
  - intros n Hn. replace (S i + n) with (i + S n) by lia.
    apply Hk. simpl. lia.
Qed.

(** The name [__proto__] never becomes a field. *)
Lemma forEach_setField_proto (cells : list Datum) :
  forall (i : nat) (o : MappedObject),
    forEach_from (setField columns) i cells o !! "__proto__" = o !! "__proto__".
Proof.
  induction cells as [|value rest IH]; intros i o; simpl; [reflexivity|].
  rewrite IH, setField_assign.
  destruct (decide (toPropertyKey (column columns i) = "__proto__")) as [Heq|Hne].
  - rewrite (assign_proto _ _ _ Heq). reflexivity.
  - apply assign_lookup_ne. exact Hne.
Qed.

(** The last cell stored under a name decides the field's value. *)
Lemma forEach_setField_last (cells : list Datum) :
  forall (i : nat) (o : MappedObject) (n : nat) (value : Datum),
    cells !! n = Some value ->
    toPropertyKey (column columns (i + n)) <> "__proto__" ->
    (forall n', n < n' < length cells ->
                toPropertyKey (column columns (i + n'))
                <> toPropertyKey (column columns (i + n))) ->
    forEach_from (setField columns) i cells o
      !! toPropertyKey (column columns (i + n))
    = Some (valueOrEmpty value).
Proof.
  induction cells as [|c rest IH]; intros i o n value Hn Hname Hlater;
    [discriminate|].
  destruct n as [|m]; simpl in *.
  - injection Hn as ->. rewrite Nat.add_0_r in *.
    rewrite forEach_setField_other.
    + rewrite setField_assign. apply assign_lookup_eq. exact Hname.
    + intros n Hlt. replace (S i + n) with (i + S n) by lia.
      apply Hlater. lia.
  - replace (i + S m) with (S i + m) in * by lia.
    apply IH; [assumption|assumption|].
    intros n' Hn'. replace (S i + n') with (i + S n') by lia.
    apply Hlater. lia.
Qed.

(** Every field of the result was there before or is named, with another
    name than [__proto__], by a cell's position. *)
Lemma forEach_setField_fields (cells : list Datum) :
  forall (i : nat) (o : MappedObject) (k : string),
    is_Some (forEach_from (setField columns) i cells o !! k) <->
    is_Some (o !! k)
    \/ (k <> "__proto__"
        /\ exists n, n < length cells /\ toPropertyKey (column columns (i + n)) = k).
Proof.
  induction cells as [|c rest IH]; intros i o k; simpl.
  - split; [tauto|]. intros [H|(_ & n & Hn & _)]; [assumption|lia].
  - rewrite IH, setField_assign. split.
    + intros [Hk|(Hproto & n & Hn & Hk)].
      * destruct (decide (toPropertyKey (column columns i) = k)) as [Heq|Hne].
        -- destruct (decide (k = "__proto__")) as [Hp|Hp].
           ++ left. rewrite assign_proto in Hk by congruence. exact Hk.
           ++ right. split; [exact Hp|]. exists 0. rewrite Nat.add_0_r.
              split; [lia|exact Heq].
        -- left. rewrite assign_lookup_ne in Hk by exact Hne. exact Hk.
      * right. split; [exact Hproto|]. exists (S n).
        replace (i + S n) with (S i + n) by lia. split; [lia|assumption].
    + intros [Hk|(Hproto & n & Hn & Hk)].
      * destruct (decide (toPropertyKey (column columns i) = k)) as [Heq|Hne].
        -- destruct (decide (k = "__proto__")) as [Hp|Hp].
           ++ left. rewrite assign_proto by congruence. exact Hk.
           ++ left. rewrite Heq, assign_lookup_eq by exact Hp. eauto.
        -- left. rewrite assign_lookup_ne by exact Hne. exact Hk.
      * destruct n as [|n].
        -- rewrite Nat.add_0_r in Hk. left.
           rewrite Hk, assign_lookup_eq by exact Hproto. eauto.
        -- right. split; [exact Hproto|]. exists n.
           replace (S i + n) with (i + S n) by lia. split; [lia|assumption].
Qed.

End RowMapper.

Lemma mapItem_field (columns : list (option string)) (item : Row)
    (i : nat) (value : Datum) :
  Data item !! i = Some value ->
  toPropertyKey (column columns i) <> "__proto__" ->
  (forall i', i < i' < length (Data item) ->
              toPropertyKey (column columns i') <> toPropertyKey (column columns i)) ->
  mapItem columns item !! toPropertyKey (column columns i) = Some (valueOrEmpty value).
Proof.
  intros Hi Hname Hlater. unfold mapItem, forEach.
  apply (forEach_setField_last columns (Data item) 0 ∅ i value Hi Hname).
  exact Hlater.
Qed.

Lemma mapItem_fields (columns : list (option string)) (item : Row) (k : string) :
  is_Some (mapItem columns item !! k) <->
  k <> "__proto__"
  /\ exists i, i < length (Data item) /\ toPropertyKey (column columns i) = k.
Proof.
  unfold mapItem, forEach. rewrite forEach_setField_fields. simpl.
  rewrite lookup_empty. split.
  - intros [[x Hx]|H]; [discriminate|exact H].
  - intros H. right. exact H.
Qed.

Lemma forEach_rows (columns : list (option string)) (rows : list Row) :
  forall (i : nat) (mappedData : list MappedObject),
    forEach_from
      (fun mappedData item i =>
         if Nat.eqb i 0 then mappedData
         else mappedData ++ [mapItem columns item])
      (S i) rows mappedData
    = mappedData ++ map (mapItem columns) rows.
Proof.
  induction rows as [|item rest IH]; intros i mappedData; simpl.
  - symmetry. apply app_nil_r.
  - rewrite IH, <- app_assoc. reflexivity.
Qed.

(** On a header followed by data rows, [mapData] maps every data row. *)
Lemma mapData_cons (header : Row) (rows : list Row) :
  mapData (header :: rows)
  = inr (map (mapItem (map VarCharValue (Data header))) rows).
Proof.
  unfold mapData, forEach. simpl. rewrite forEach_rows. reflexivity.
Qed.

Lemma column_past_header (header : Row) (i : nat) :
  length (Data header) <= i -> fieldName header i = "undefined".
Proof.
  intros Hi. unfold fieldName, column.
  rewrite (lookup_ge_None_2 (map VarCharValue (Data header)) i); [reflexivity|].
  rewrite length_map. exact Hi.
Qed.

Lemma fieldName_header (header : Row) (i : nat) (c : Datum) :
  Data header !! i = Some c -> fieldName header i = toPropertyKey (VarCharValue c).
Proof.
  intros Hc. unfold fieldName, column.
  rewrite list_lookup_fmap, Hc. reflexivity.
Qed.

(** C1, as the code has it: on the empty input, [mapData] throws the
    runtime's [TypeError] (reading [Data] of the missing first row); it
    returns no value. *)
Theorem mapData_empty_throws_TypeError :
  mapData [] = inl TypeError /\ name TypeError = "TypeError".
Proof. split; reflexivity. Qed.

(** C1 as stated fails: what [mapData] throws on the empty input is not an
    error named EmptyResultSet. *)
Lemma mapData_empty_not_EmptyResultSet :
  ~ (exists e, mapData [] = inl e /\ name e = "EmptyResultSet").
Proof.
  intros (e & He & Hname). simpl in He. injection He as <-. discriminate.
Qed.



Example mapData_ab :
  mapData [row [cell "a"; cell "b"]; row [cell "1"; cell "2"]; row [cell "3"; absent]]
  = inr [ {[ "a" := "1"; "b" := "2" ]}; {[ "a" := "3"; "b" := "" ]} ].
Proof. vm_compute. reflexivity. Qed.




(** C2, as the code has it: for a data row strictly shorter than the
    header, the object has a field exactly for the header names, other than
    __proto__, at the positions the row has a cell for; a trailing header
    column gets no field, unless a column the row covers has the same
    name. *)
Theorem mapData_short_row_omits_trailing_fields
    (header : Row) (rows : list Row) (j : nat) (item : Row)
    (Hitem : rows !! j = Some item)
    (Hshort : length (Data item) < length (Data header)) :
  exists mappedData mappedObject,
    mapData (header :: rows) = inr mappedData
    /\ mappedData !! j = Some mappedObject
    /\ (forall k, is_Some (mappedObject !! k) <->
                  k <> "__proto__"
                  /\ exists i c, i < length (Data item)
                                 /\ Data header !! i = Some c
                                 /\ toPropertyKey (VarCharValue c) = k)
    /\ (forall p c,
          length (Data item) <= p ->
          Data header !! p = Some c ->
          (forall i, i < length (Data item) -> fieldName header i <> fieldName header p) ->
          mappedObject !! toPropertyKey (VarCharValue c) = None).
Proof.
  exists (map (mapItem (map VarCharValue (Data header))) rows),
         (mapItem (map VarCharValue (Data header)) item).
  split; [apply mapData_cons|].
  split; [rewrite list_lookup_fmap, Hitem; reflexivity|].
  assert (Hfields : forall k,
             is_Some (mapItem (map VarCharValue (Data header)) item !! k) <->
             k <> "__proto__"
             /\ exists i c, i < length (Data item) /\ Data header !! i = Some c
                            /\ toPropertyKey (VarCharValue c) = k).
  { intros k. rewrite mapItem_fields. split.
    - intros (Hproto & i & Hi & Hk). split; [exact Hproto|].
      destruct (lookup_lt_is_Some_2 (Data header) i) as [c Hc]; [lia|].
      exists i, c. repeat split; [assumption..|].
      rewrite <- (fieldName_header header i c Hc). exact Hk.
    - intros (Hproto & i & c & Hi & Hc & Hk). split; [exact Hproto|].
      exists i. split; [assumption|].
      rewrite <- Hk. apply (fieldName_header header i c Hc). }
  split; [exact Hfields|].
  intros p c Hp Hc Hfresh.
  apply eq_None_not_Some. rewrite Hfields.
  intros (_ & i & c' & Hi & Hc' & Hk).
  apply (Hfresh i Hi).
  rewrite (fieldName_header header i c' Hc'), (fieldName_header header p c Hc).
  exact Hk.
Qed.

Lemma mapData_short_row_omits_trailing_fields_witness :
  exists mappedData mappedObject,
    mapData [row [cell "a"; cell "b"]; row [cell "1"]] = inr mappedData
    /\ mappedData !! 0 = Some mappedObject
    /\ mappedObject !! "b" = None.
Proof.
  destruct (mapData_short_row_omits_trailing_fields
              (row [cell "a"; cell "b"]) [row [cell "1"]] 0 (row [cell "1"])
              eq_refl ltac:(simpl; lia))
    as (mappedData & mappedObject & Hmap & Hj & _ & Hnone).
  exists mappedData, mappedObject. split; [exact Hmap|]. split; [exact Hj|].
  apply (Hnone 1 (cell "b")); [simpl; lia|reflexivity|].
  intros i Hi. simpl in Hi. assert (i = 0) as -> by lia. discriminate.
Defined.

(** C2 as stated fails: for the header a, b and the data row 1, the object
    has no field b, so not the empty string under b. *)
Lemma mapData_short_row_no_empty_field :
  ~ (exists mappedData mappedObject,
        mapData [row [cell "a"; cell "b"]; row [cell "1"]] = inr mappedData
        /\ mappedData !! 0 = Some mappedObject
        /\ mappedObject !! "b" = Some "").
Proof.
  intros (mappedData & mappedObject & Hmap & Hj & Hb).
  rewrite mapData_cons in Hmap. injection Hmap as <-.
  simpl in Hj. injection Hj as <-.
  vm_compute in Hb. discriminate.
Qed.

(** C10: for a data row strictly longer than the header, every cell past
    the header's length is stored under the name undefined, and that field
    ends up with the value of the row's last cell (the empty string when it
    is absent). *)
Theorem mapData_long_row_extra_cells_under_undefined
    (header : Row) (rows : list Row) (j : nat) (item : Row)
    (Hitem : rows !! j = Some item)
    (Hlong : length (Data header) < length (Data item)) :
  exists mappedData mappedObject lastCell,
    mapData (header :: rows) = inr mappedData
    /\ mappedData !! j = Some mappedObject
    /\ (forall i value o,
          length (Data header) <= i ->
          Data item !! i = Some value ->
          setField (map VarCharValue (Data header)) o value i
          = <["undefined" := valueOrEmpty value]> o)
    /\ last (Data item) = Some lastCell
    /\ mappedObject !! "undefined" = Some (valueOrEmpty lastCell).
Proof.
  destruct (lookup_lt_is_Some_2 (Data item) (length (Data item) - 1))
    as [lastCell Hlast]; [lia|].
  exists (map (mapItem (map VarCharValue (Data header))) rows),
         (mapItem (map VarCharValue (Data header)) item), lastCell.
  split; [apply mapData_cons|].
  split; [rewrite list_lookup_fmap, Hitem; reflexivity|].
  split.
  { intros i value o Hi _. rewrite setField_assign.
    fold (fieldName header i). rewrite column_past_header by exact Hi.
    reflexivity. }
  split.
  { rewrite last_lookup. rewrite <- Hlast. f_equal. lia. }
  rewrite <- (column_past_header header (length (Data item) - 1)) by lia.
  apply mapItem_field; [exact Hlast| |intros i' Hi'; lia].
  fold (fieldName header (length (Data item) - 1)).
  rewrite column_past_header by lia. discriminate.
Qed.

Lemma mapData_long_row_extra_cells_under_undefined_witness :
  exists mappedData mappedObject lastCell,
    mapData [row [cell "a"]; row [cell "1"; cell "2"; cell "3"]] = inr mappedData
    /\ mappedData !! 0 = Some mappedObject
    /\ last [cell "1"; cell "2"; cell "3"] = Some lastCell
    /\ mappedObject !! "undefined" = Some (valueOrEmpty lastCell).
Proof.
  destruct (mapData_long_row_extra_cells_under_undefined
              (row [cell "a"]) [row [cell "1"; cell "2"; cell "3"]] 0
              (row [cell "1"; cell "2"; cell "3"]) eq_refl ltac:(simpl; lia))
    as (mappedData & mappedObject & lastCell & Hmap & Hj & _ & Hlast & Hundefined).
  exists mappedData, mappedObject, lastCell. repeat split; assumption.
Defined.

(** * Properties of the paginator *)

Lemma sendGetQueryResults_output (id : string) (token : option string)
    (w : World) (page : GetQueryResultsOutput)
    (rest : list (Exception + GetQueryResultsOutput)) :
  results w = inr page :: rest ->
  sendGetQueryResults id token w
  = (Returned page,
     {| submissions := submissions w; executions := executions w;
        results := rest;
        trace := trace w ++ [Sent (GetQueryResultsCommand id token)] |}).
Proof. intros H. unfold sendGetQueryResults. rewrite H. reflexivity. Qed.

Lemma fetchPages_pages (pages : list GetQueryResultsOutput) :
  forall (fuel : nat) (id : string) (nextToken : option string)
         (allRows : list Row) (w : World) (lastPage : GetQueryResultsOutput)
         (rest : list (Exception + GetQueryResultsOutput)),
    Forall (fun page => truthy (NextToken page) = true) pages ->
    truthy (NextToken lastPage) = false ->
    results w = map inr (pages ++ [lastPage]) ++ rest ->
    length pages < fuel ->
    fetchPages fuel id nextToken allRows w
    = (Returned (allRows ++ concat (map rowsOf (pages ++ [lastPage]))),
       {| submissions := submissions w; executions := executions w;
          results := rest;
          trace := trace w
                   ++ fetches id (requestToken nextToken :: map NextToken pages) |}).
Proof.
  induction pages as [|page pages IH];
    intros fuel id nextToken allRows w lastPage rest Hpages Hlast Hresults Hfuel;
    (destruct fuel as [|fuel]; [simpl in Hfuel; lia|]);
    simpl in Hresults, Hfuel; simpl; unfold bind;
    rewrite (sendGetQueryResults_output _ _ _ _ _ Hresults).
  - rewrite Hlast. unfold ret. rewrite app_nil_r. reflexivity.
  - inversion Hpages as [|? ? Hpage Hpages']; subst.
    rewrite Hpage.
    erewrite IH; [|exact Hpages'|exact Hlast|reflexivity|lia].
    simpl. unfold requestToken at 2. rewrite Hpage.
    rewrite <- !app_assoc. reflexivity.
Qed.

(** Whatever [fetchPages] returns is made of all the pages up to and
    including the first one whose token is falsy. *)
Lemma fetchPages_returned (fuel : nat) :
  forall (id : string) (nextToken : option string) (allRows : list Row)
         (w w' : World) (rows : list Row),
    fetchPages fuel id nextToken allRows w = (Returned rows, w') ->
    exists pages lastPage,
      results w = map inr (pages ++ [lastPage]) ++ results w'
      /\ Forall (fun page => truthy (NextToken page) = true) pages
      /\ truthy (NextToken lastPage) = false
      /\ rows = allRows ++ concat (map rowsOf (pages ++ [lastPage])).
Proof.
  induction fuel as [|fuel IH]; intros id nextToken allRows w w' rows Hrun;
    simpl in Hrun; [discriminate|].
  unfold bind, sendGetQueryResults, settle in Hrun.
  destruct (results w) as [|[e|page] rest] eqn:Hresults; simpl in Hrun;
    try discriminate.
  destruct (truthy (NextToken page)) eqn:Hpage.
  - apply IH in Hrun as (pages & lastPage & Hrest & Hpages & Hlast & Hrows).
    simpl in Hrest. exists (page :: pages), lastPage.
    split; [simpl; rewrite Hrest; reflexivity|].
    split; [constructor; assumption|]. split; [assumption|].
    rewrite Hrows. simpl. rewrite <- app_assoc. reflexivity.
  - unfold ret in Hrun. injection Hrun as <- <-. simpl.
    exists [], page. simpl. rewrite app_nil_r. auto.
Qed.

Lemma fetchPages_enough_fuel (fuel : nat) :
  forall (id : string) (nextToken : option string) (allRows : list Row) (w : World),
    length (results w) < fuel ->
    fst (fetchPages fuel id nextToken allRows w) <> OutOfFuel.
Proof.
  induction fuel as [|fuel IH]; intros id nextToken allRows w Hfuel; [lia|].
  simpl. unfold bind, sendGetQueryResults, settle.
  destruct (results w) as [|[e|page] rest] eqn:Hresults; simpl; try discriminate.
  destruct (truthy (NextToken page)); [|discriminate].
  apply IH. simpl in *. lia.
Qed.

(** The trace only grows, and a page fetch adds nothing but fetches. *)
Lemma fetchPages_trace (fuel : nat) :
  forall (id : string) (nextToken : option string) (allRows : list Row) (w : World),
    submissions (snd (fetchPages fuel id nextToken allRows w)) = submissions w
    /\ executions (snd (fetchPages fuel id nextToken allRows w)) = executions w
    /\ exists tokens,
        trace (snd (fetchPages fuel id nextToken allRows w))
        = trace w ++ fetches id tokens.
Proof.
  induction fuel as [|fuel IH]; intros id nextToken allRows w; simpl.
  - repeat split. exists []. simpl. rewrite app_nil_r. reflexivity.
  - unfold bind, sendGetQueryResults, settle.
    destruct (results w) as [|[e|page] rest] eqn:Hresults; simpl;
      try (repeat split; eexists [_]; reflexivity).
    destruct (truthy (NextToken page)).
    + match goal with
      | |- context [fetchPages fuel id ?t ?r ?w1] =>
          destruct (IH id t r w1) as (Hs & He & tokens & Ht)
      end.
      rewrite Hs, He, Ht. simpl. repeat split.
      eexists (_ :: tokens). rewrite <- app_assoc. reflexivity.
    + simpl. repeat split. eexists [_]. reflexivity.
Qed.

(** C5: when every page but the last carries a token, a non-empty string,
    and the last carries none, the n pages are fetched with exactly n
    requests, the first without a token and each later one with the token
    of the previous response, and the accumulated rows are the pages' rows
    concatenated in request order; [getQueryResults] maps exactly these
    rows. *)
Theorem getQueryResults_fetches_all_pages
    (pages : list GetQueryResultsOutput) (lastPage : GetQueryResultsOutput)
    (rest : list (Exception + GetQueryResultsOutput))
    (fuel : nat) (id : string) (w : World)
    (Hpages : Forall (fun page => truthy (NextToken page) = true) pages)
    (Hlast : truthy (NextToken lastPage) = false)
    (Hresults : results w = map inr (pages ++ [lastPage]) ++ rest)
    (Hfuel : length pages < fuel) :
  let allRows := concat (map rowsOf (pages ++ [lastPage])) in
  let w' := {| submissions := submissions w; executions := executions w;
               results := rest;
               trace := trace w ++ fetches id (None :: map NextToken pages) |} in
  fetchPages fuel id None [] w = (Returned allRows, w')
  /\ getQueryResults fuel id w
     = (match mapData allRows with
        | inr mappedData => Returned mappedData
        | inl e => Thrown e
        end, w')
  /\ length (fetches id (None :: map NextToken pages)) = length (pages ++ [lastPage]).
Proof.
  intros allRows w'.
  assert (Hrun : fetchPages fuel id None [] w = (Returned allRows, w')).
  { rewrite (fetchPages_pages pages fuel id None [] w lastPage rest);
      auto. }
  split; [exact Hrun|]. split.
  - unfold getQueryResults, bind. rewrite Hrun.
    destruct (mapData allRows); reflexivity.
  - unfold fetches. rewrite length_map, length_app. simpl.
    rewrite length_map. lia.
Qed.

Lemma getQueryResults_fetches_all_pages_witness :
  getQueryResults 3 "q-1"
    (scripted [] [inr (page [row [cell "a"]] (Some "t1"));
                  inr (page [row [cell "1"]] (Some "t2"));
                  inr (page [row [cell "2"]] None)])
  = (Returned [ {[ "a" := "1" ]}; {[ "a" := "2" ]} ],
     {| submissions := [inr {| QueryExecutionId := "q-1" |}];
        executions := []; results := [];
        trace := [Sent (GetQueryResultsCommand "q-1" None);
                  Sent (GetQueryResultsCommand "q-1" (Some "t1"));
                  Sent (GetQueryResultsCommand "q-1" (Some "t2"))] |}).
Proof.
  apply (proj1 (proj2 (getQueryResults_fetches_all_pages
           [page [row [cell "a"]] (Some "t1"); page [row [cell "1"]] (Some "t2")]
           (page [row [cell "2"]] None) [] 3 "q-1"
           (scripted [] [inr (page [row [cell "a"]] (Some "t1"));
                         inr (page [row [cell "1"]] (Some "t2"));
                         inr (page [row [cell "2"]] None)])
           ltac:(repeat constructor) eq_refl eq_refl ltac:(simpl; lia)))).
Defined.

(** * Properties of the poller *)

Lemma sendGetQueryExecution_output (id : string) (w : World)
    (response : GetQueryExecutionOutput)
    (rest : list (Exception + GetQueryExecutionOutput)) :
  executions w = inr response :: rest ->
  sendGetQueryExecution id w
  = (Returned response,
     {| submissions := submissions w; executions := rest;
        results := results w;
        trace := trace w ++ [Sent (GetQueryExecutionCommand id)] |}).
Proof. intros H. unfold sendGetQueryExecution. rewrite H. reflexivity. Qed.

(** Polling through a run of non-terminal observations. *)
Lemma poll_waits (pending : list GetQueryExecutionOutput) :
  forall (fuel : nat) (id : string) (w : World)
         (rest : list (Exception + GetQueryExecutionOutput)),
    Forall (fun response => nonTerminal (State response) = true) pending ->
    executions w = map inr pending ++ rest ->
    checkQueryExequtionStateAndGetData (length pending + fuel) id w
    = checkQueryExequtionStateAndGetData fuel id
        {| submissions := submissions w; executions := rest;
           results := results w;
           trace := trace w ++ waits id (length pending) |}.
Proof.
  induction pending as [|response pending IH]; intros fuel id w rest Hpending Hexec.
  - simpl in *. unfold waits. simpl. rewrite app_nil_r, <- Hexec.
    destruct w; reflexivity.
  - inversion Hpending as [|? ? Hresponse Hpending']; subst.
    simpl in Hexec. simpl. unfold bind.
    rewrite (sendGetQueryExecution_output _ _ _ _ Hexec).
    destruct (State response); try discriminate;
      unfold timeout, log; simpl;
      (erewrite IH; [|exact Hpending'|reflexivity]); simpl;
      unfold waits; simpl; rewrite <- !app_assoc; reflexivity.
Qed.

Lemma checkQueryExequtionStateAndGetData_returned (fuel : nat) :
  forall (id : string) (w w' : World) (mappedData : list MappedObject),
    checkQueryExequtionStateAndGetData fuel id w = (Returned mappedData, w') ->
    exists pages lastPage,
      results w = map inr (pages ++ [lastPage]) ++ results w'
      /\ Forall (fun page => truthy (NextToken page) = true) pages
      /\ truthy (NextToken lastPage) = false
      /\ mapData (concat (map rowsOf (pages ++ [lastPage]))) = inr mappedData.
Proof.
  induction fuel as [|fuel IH]; intros id w w' mappedData Hrun;
    simpl in Hrun; [discriminate|].
  unfold bind at 1, sendGetQueryExecution, settle in Hrun.
  destruct (executions w) as [|[e|response] rest]; simpl in Hrun;
    try discriminate.
  destruct (State response); try discriminate.
  - apply IH in Hrun. exact Hrun.
  - apply IH in Hrun. exact Hrun.
  - unfold getQueryResults, bind in Hrun.
    match type of Hrun with
    | context [fetchPages fuel id None [] ?w1] =>
        destruct (fetchPages fuel id None [] w1) as [[rows| |] w2] eqn:Hfetch
    end; try discriminate.
    apply fetchPages_returned in Hfetch
      as (pages & lastPage & Hresults & Hpages & Hlast & Hrows).
    simpl in Hresults, Hrows. subst rows.
    destruct (mapData _) as [e|records] eqn:Hmap; try discriminate.
    injection Hrun as <- <-. exists pages, lastPage. auto.
Qed.

Lemma checkQueryExequtionStateAndGetData_enough_fuel (fuel : nat) :
  forall (id : string) (w : World),
    length (executions w) + length (results w) < fuel ->
    fst (checkQueryExequtionStateAndGetData fuel id w) <> OutOfFuel.
Proof.
  induction fuel as [|fuel IH]; intros id w Hfuel; [lia|].
  simpl. unfold bind at 1, sendGetQueryExecution, settle.
  destruct (executions w) as [|[e|response] rest] eqn:Hexec; simpl;
    try discriminate.
  simpl in Hfuel.
  destruct (State response); try discriminate;
    try (apply IH; simpl; lia).
  unfold getQueryResults, bind.
  match goal with
  | |- context [fetchPages fuel id None [] ?w1] =>
      pose proof (fetchPages_enough_fuel fuel id None [] w1) as Hfetch;
      destruct (fetchPages fuel id None [] w1) as [[rows| |] w2]
  end; simpl in *; try discriminate.
  - destruct (mapData rows); discriminate.
  - exfalso. apply Hfetch; [lia|reflexivity].
Qed.

Lemma poll_terminal (pending : list GetQueryExecutionOutput)
    (terminal : GetQueryExecutionOutput)
    (rest : list (Exception + GetQueryExecutionOutput))
    (fuel : nat) (id : string) (w : World) :
  Forall (fun response => nonTerminal (State response) = true) pending ->
  executions w = map inr pending ++ inr terminal :: rest ->
  length pending < fuel ->
  let w' := {| submissions := submissions w; executions := rest;
               results := results w;
               trace := trace w ++ waits id (length pending)
                        ++ [Sent (GetQueryExecutionCommand id)] |} in
  checkQueryExequtionStateAndGetData fuel id w
  = match State terminal with
    | QUEUED | RUNNING =>
        checkQueryExequtionStateAndGetData (fuel - length pending - 1) id
          (log (Timeout 1000) w')
    | SUCCEEDED => getQueryResults (fuel - length pending - 1) id w'
    | FAILED =>
        (Thrown (Error ("Query failed: " +:+
                        toPropertyKey (StateChangeReason terminal))), w')
    | CANCELLED => (Thrown (Error "Query was cancelled"), w')
    end.
Proof.
  intros Hpending Hexec Hfuel w'.
  replace fuel with (length pending + S (fuel - length pending - 1)) at 1 by lia.
  rewrite (poll_waits pending _ id w (inr terminal :: rest) Hpending Hexec).
  simpl. unfold bind at 1.
  erewrite sendGetQueryExecution_output by reflexivity. simpl.
  subst w'. rewrite <- !app_assoc.
  destruct (State terminal); reflexivity.
Qed.

(** C4: on a run of non-terminal observations followed by a terminal one,
    the poller queries the status once per observation, the terminal one
    included, consumes exactly these observations, waits 1000 ms between
    two consecutive queries, and goes on according to the terminal
    observation: it fetches the results on SUCCEEDED and throws on FAILED
    and on CANCELLED. *)
Theorem checkQueryExequtionStateAndGetData_polls_once_per_status
    (pending : list GetQueryExecutionOutput) (terminal : GetQueryExecutionOutput)
    (rest : list (Exception + GetQueryExecutionOutput))
    (fuel : nat) (id : string) (w : World)
    (Hpending : Forall (fun response => nonTerminal (State response) = true) pending)
    (Hterminal : nonTerminal (State terminal) = false)
    (Hexec : executions w = map inr pending ++ inr terminal :: rest)
    (Hfuel : length pending < fuel) :
  let w' := {| submissions := submissions w; executions := rest;
               results := results w;
               trace := trace w
                        ++ concat (replicate (length pending)
                                     [Sent (GetQueryExecutionCommand id);
                                      Timeout 1000])
                        ++ [Sent (GetQueryExecutionCommand id)] |} in
  (State terminal = SUCCEEDED ->
   checkQueryExequtionStateAndGetData fuel id w
   = getQueryResults (fuel - length pending - 1) id w')
  /\ (State terminal = FAILED ->
      checkQueryExequtionStateAndGetData fuel id w
      = (Thrown (Error ("Query failed: " +:+
                        toPropertyKey (StateChangeReason terminal))), w'))
  /\ (State terminal = CANCELLED ->
      checkQueryExequtionStateAndGetData fuel id w
      = (Thrown (Error "Query was cancelled"), w'))
  /\ (State terminal = SUCCEEDED \/ State terminal = FAILED
      \/ State terminal = CANCELLED).
Proof.
  intros w'.
  pose proof (poll_terminal pending terminal rest fuel id w Hpending Hexec Hfuel)
    as Hrun.
  simpl in Hrun. unfold waits in Hrun. fold w' in Hrun.
  repeat split.
  - intros Hstate. rewrite Hrun, Hstate. reflexivity.
  - intros Hstate. rewrite Hrun, Hstate. reflexivity.
  - intros Hstate. rewrite Hrun, Hstate. reflexivity.
  - destruct (State terminal); try discriminate; auto.
Qed.

Lemma checkQueryExequtionStateAndGetData_polls_once_per_status_witness :
  checkQueryExequtionStateAndGetData 3 "q-1"
    (scripted [inr (status QUEUED None); inr (status RUNNING None);
               inr (status CANCELLED None); inr (status SUCCEEDED None)] [])
  = (Thrown (Error "Query was cancelled"),
     {| submissions := [inr {| QueryExecutionId := "q-1" |}];
        executions := [inr (status SUCCEEDED None)];
        results := [];
        trace := [Sent (GetQueryExecutionCommand "q-1"); Timeout 1000;
                  Sent (GetQueryExecutionCommand "q-1"); Timeout 1000;
                  Sent (GetQueryExecutionCommand "q-1")] |}).
Proof.
  apply (proj1 (proj2 (proj2
           (checkQueryExequtionStateAndGetData_polls_once_per_status
              [status QUEUED None; status RUNNING None] (status CANCELLED None)
              [inr (status SUCCEEDED None)] 3 "q-1"
              (scripted [inr (status QUEUED None); inr (status RUNNING None);
                         inr (status CANCELLED None); inr (status SUCCEEDED None)] [])
              ltac:(repeat constructor) eq_refl eq_refl ltac:(simpl; lia)))) eq_refl).
Defined.

(** * Properties of [query] *)

Lemma query_submitted (this : AthenaQueryClient) (fuel : nat) (sqlQuery : string)
    (w : World) (output : StartQueryExecutionOutput)
    (rest : list (Exception + StartQueryExecutionOutput)) :
  submissions w = inr output :: rest ->
  query this fuel sqlQuery w
  = checkQueryExequtionStateAndGetData fuel (QueryExecutionId output)
      {| submissions := rest; executions := executions w; results := results w;
         trace := trace w
                  ++ [Sent (StartQueryExecutionCommand (submission this sqlQuery))] |}.
Proof.
  intros Hsub. unfold query, bind, sendStartQueryExecution.
  rewrite Hsub. reflexivity.
Qed.

Lemma getQueryResults_trace (fuel : nat) (id : string) (w : World) :
  exists tokens,
    trace (snd (getQueryResults fuel id w)) = trace w ++ fetches id tokens.
Proof.
  destruct (fetchPages_trace fuel id None [] w) as (_ & _ & tokens & Htrace).
  exists tokens. unfold getQueryResults, bind.
  destruct (fetchPages fuel id None [] w) as [[rows| |] w1]; simpl in *;
    try assumption.
  destruct (mapData rows); assumption.
Qed.

(** After the submission, the client only polls, waits and fetches. *)
Lemma checkQueryExequtionStateAndGetData_trace (fuel : nat) :
  forall (id : string) (w : World),
    exists added,
      trace (snd (checkQueryExequtionStateAndGetData fuel id w)) = trace w ++ added
      /\ Forall (fun e => isSubmission e = false) added.
Proof.
  induction fuel as [|fuel IH]; intros id w; simpl.
  - exists []. rewrite app_nil_r. auto.
  - unfold bind at 1, sendGetQueryExecution, settle.
    destruct (executions w) as [|[e|response] rest]; simpl;
      try (eexists [_]; split; [reflexivity|repeat constructor]).
    destruct (State response); simpl;
      try (eexists [_]; split; [reflexivity|repeat constructor]).
    + unfold bind, timeout, log. simpl.
      match goal with
      | |- context [checkQueryExequtionStateAndGetData fuel id ?w1] =>
          destruct (IH id w1) as (added & Htrace & Hadded)
      end.
      simpl in Htrace. rewrite Htrace.
      eexists (_ :: _ :: added). rewrite <- !app_assoc.
      split; [reflexivity|repeat constructor; assumption].
    + unfold bind, timeout, log. simpl.
      match goal with
      | |- context [checkQueryExequtionStateAndGetData fuel id ?w1] =>
          destruct (IH id w1) as (added & Htrace & Hadded)
      end.
      simpl in Htrace. rewrite Htrace.
      eexists (_ :: _ :: added). rewrite <- !app_assoc.
      split; [reflexivity|repeat constructor; assumption].
    + match goal with
      | |- context [getQueryResults fuel id ?w1] =>
          destruct (getQueryResults_trace fuel id w1) as (tokens & Htrace)
      end.
      rewrite Htrace. simpl. eexists (_ :: fetches id tokens).
      rewrite <- app_assoc. split; [reflexivity|].
      constructor; [reflexivity|].
      unfold fetches. apply Forall_fmap, Forall_true. reflexivity.
Qed.

Lemma waits_no_fetch (id : string) (n : nat) :
  Forall (fun e => isFetch e = false) (waits id n).
Proof.
  induction n as [|n IH]; unfold waits; simpl; repeat constructor. exact IH.
Qed.

(** C3, as the code has it: when the polled execution reaches FAILED with
    the reason r, [query] throws a plain Error whose message is r behind
    the prefix "Query failed: "; when it reaches CANCELLED, [query] throws a
    plain Error with the message "Query was cancelled". *)
Theorem query_failed_or_cancelled_throws_Error
    (this : AthenaQueryClient) (fuel : nat) (sqlQuery : string) (w : World)
    (output : StartQueryExecutionOutput)
    (submitted : list (Exception + StartQueryExecutionOutput))
    (pending : list GetQueryExecutionOutput) (terminal : GetQueryExecutionOutput)
    (rest : list (Exception + GetQueryExecutionOutput))
    (Hsub : submissions w = inr output :: submitted)
    (Hpending : Forall (fun response => nonTerminal (State response) = true) pending)
    (Hexec : executions w = map inr pending ++ inr terminal :: rest)
    (Hfuel : length pending < fuel) :
  (forall r, State terminal = FAILED -> StateChangeReason terminal = Some r ->
             fst (query this fuel sqlQuery w) = Thrown (Error ("Query failed: " +:+ r))
             /\ name (Error ("Query failed: " +:+ r)) = "Error"
             /\ message (Error ("Query failed: " +:+ r))
                = Some ("Query failed: " +:+ r))
  /\ (State terminal = CANCELLED ->
      fst (query this fuel sqlQuery w) = Thrown (Error "Query was cancelled")).
Proof.
  rewrite (query_submitted this fuel sqlQuery w output submitted Hsub).
  erewrite (poll_terminal pending terminal rest fuel);
    [|exact Hpending|exact Hexec|exact Hfuel].
  split.
  - intros r Hstate Hreason. rewrite Hstate, Hreason. auto.
  - intros Hstate. rewrite Hstate. reflexivity.
Qed.

Lemma query_failed_or_cancelled_throws_Error_witness :
  fst (query client 2 "SELECT 1"
         (scripted [inr (status RUNNING None);
                    inr (status FAILED (Some "syntax error"))] []))
  = Thrown (Error "Query failed: syntax error").
Proof.
  apply (proj1 (query_failed_or_cancelled_throws_Error client 2 "SELECT 1"
           (scripted [inr (status RUNNING None);
                      inr (status FAILED (Some "syntax error"))] [])
           {| QueryExecutionId := "q-1" |} [] [status RUNNING None]
           (status FAILED (Some "syntax error")) []
           eq_refl ltac:(repeat constructor) eq_refl ltac:(simpl; lia))
         "syntax error" eq_refl eq_refl).
Defined.

(** C3 as stated fails: with the reason "syntax error", no error whose
    carried message is exactly "syntax error" is thrown. *)
Lemma query_failed_reason_not_verbatim :
  ~ (exists e,
        fst (query client 1 "SELECT 1"
               (scripted [inr (status FAILED (Some "syntax error"))] []))
        = Thrown e
        /\ message e = Some "syntax error").
Proof.
  intros (e & Hthrown & Hmessage). simpl in Hthrown.
  injection Hthrown as <-. discriminate.
Qed.

(** C8: when the execution reaches FAILED or CANCELLED, [query] throws, and
    between the submission and the throw it sent nothing but status queries:
    no page is fetched and the scripted pages are untouched.  In general,
    with enough fuel [query] either throws or returns the objects mapped
    from the rows of all pages up to and including the first one without a
    truthy token; it returns nothing else. *)
Theorem query_throws_or_returns_all
    (this : AthenaQueryClient) (fuel : nat) (sqlQuery : string) (w : World) :
  (forall output submitted pending terminal rest,
      submissions w = inr output :: submitted ->
      Forall (fun response => nonTerminal (State response) = true) pending ->
      executions w = map inr pending ++ inr terminal :: rest ->
      State terminal = FAILED \/ State terminal = CANCELLED ->
      length pending < fuel ->
      exists e added,
        fst (query this fuel sqlQuery w) = Thrown e
        /\ trace (snd (query this fuel sqlQuery w)) = trace w ++ added
        /\ Forall (fun e => isFetch e = false) added
        /\ results (snd (query this fuel sqlQuery w)) = results w)
  /\ (length (executions w) + length (results w) < fuel ->
      (exists e, fst (query this fuel sqlQuery w) = Thrown e)
      \/ (exists mappedData pages lastPage,
            fst (query this fuel sqlQuery w) = Returned mappedData
            /\ results w
               = map inr (pages ++ [lastPage])
                 ++ results (snd (query this fuel sqlQuery w))
            /\ Forall (fun page => truthy (NextToken page) = true) pages
            /\ truthy (NextToken lastPage) = false
            /\ mapData (concat (map rowsOf (pages ++ [lastPage])))
               = inr mappedData)).
Proof.
  split.
  - intros output submitted pending terminal rest Hsub Hpending Hexec Hstate Hfuel.
    rewrite (query_submitted this fuel sqlQuery w output submitted Hsub).
    erewrite (poll_terminal pending terminal rest fuel);
      [|exact Hpending|exact Hexec|exact Hfuel].
    destruct Hstate as [-> | ->]; simpl;
      eexists _, (_ :: waits _ (length pending) ++ [_]);
      (split; [reflexivity|]);
      (split; [rewrite <- app_assoc; reflexivity|]);
      (split; [|reflexivity]);
      (constructor; [reflexivity|]);
      (apply Forall_app; split; [apply waits_no_fetch|repeat constructor]).
  - intros Hfuel. unfold query, bind, sendStartQueryExecution, settle.
    destruct (submissions w) as [|[e|output] submitted]; simpl;
      try (left; eexists; reflexivity).
    match goal with
    | |- context [checkQueryExequtionStateAndGetData fuel ?id ?w1] =>
        pose proof (checkQueryExequtionStateAndGetData_enough_fuel fuel id w1 Hfuel)
          as Hnot;
        pose proof (checkQueryExequtionStateAndGetData_returned fuel id w1) as Hret;
        destruct (checkQueryExequtionStateAndGetData fuel id w1)
          as [[mappedData|e|] w2]
    end; simpl in *.
    + right. destruct (Hret w2 mappedData eq_refl)
        as (pages & lastPage & Hresults & Hpages & Hlast & Hmap).
      exists mappedData, pages, lastPage. auto.
    + left. eexists. reflexivity.
    + congruence.
Qed.

Lemma query_throws_or_returns_all_witness :
  exists e added,
    fst (query client 1 "SELECT 1"
           (scripted [inr (status FAILED (Some "syntax error"))]
                     [inr (page [row [cell "a"]] None)])) = Thrown e
    /\ trace (snd (query client 1 "SELECT 1"
                     (scripted [inr (status FAILED (Some "syntax error"))]
                               [inr (page [row [cell "a"]] None)])))
       = [] ++ added
    /\ Forall (fun e => isFetch e = false) added
    /\ results (snd (query client 1 "SELECT 1"
                       (scripted [inr (status FAILED (Some "syntax error"))]
                                 [inr (page [row [cell "a"]] None)])))
       = [inr (page [row [cell "a"]] None)].
Proof.
  apply (proj1 (query_throws_or_returns_all client 1 "SELECT 1"
           (scripted [inr (status FAILED (Some "syntax error"))]
                     [inr (page [row [cell "a"]] None)]))
         {| QueryExecutionId := "q-1" |} [] []
         (status FAILED (Some "syntax error")) []
         eq_refl ltac:(constructor) eq_refl ltac:(left; reflexivity)
         ltac:(simpl; lia)).
Defined.

(** C9, as the code has it: a client constructed without workgroup and
    without result-reuse configuration has the workgroup "primary" and
    result reuse enabled with a maximal age of 60 minutes; a non-empty
    workgroup and a result-reuse configuration given to the constructor
    replace these defaults, while an empty workgroup leaves "primary"; and
    the one submission [query] sends, before anything else, carries the
    query string with the client's database, catalog, workgroup and
    result-reuse configuration. *)
Theorem constructor_defaults_and_query_submission :
  (forall config,
      database (constructor config) = config_Database config
      /\ catalog (constructor config) = config_Catalog config)
  /\ (forall config,
        config_WorkGroup config = None ->
        workGroup (constructor config) = "primary")
  /\ (forall config,
        config_ResultReuseConfiguration config = None ->
        resultReuseConfiguration (constructor config)
        = {| ResultReuseByAgeConfiguration :=
               {| Enabled := true; MaxAgeInMinutes := Some 60%Z |} |})
  /\ (forall config name,
        config_WorkGroup config = Some name ->
        workGroup (constructor config) = if String.eqb name "" then "primary" else name)
  /\ (forall config configuration,
        config_ResultReuseConfiguration config = Some configuration ->
        resultReuseConfiguration (constructor config) = configuration)
  /\ (forall this fuel sqlQuery w,
        exists later,
          trace (snd (query this fuel sqlQuery w))
          = trace w
            ++ Sent (StartQueryExecutionCommand
                       {| QueryString := sqlQuery;
                          input_QueryExecutionContext :=
                            {| Database := database this;
                               Catalog := catalog this |};
                          WorkGroup := workGroup this;
                          input_ResultReuseConfiguration :=
                            resultReuseConfiguration this |})
               :: later
          /\ Forall (fun e => isSubmission e = false) later).
Proof.
  repeat split.
  - intros config H. unfold constructor. simpl. rewrite H. reflexivity.
  - intros config H. unfold constructor. simpl. rewrite H. reflexivity.
  - intros config name H. unfold constructor. simpl. rewrite H. simpl.
    destruct (String.eqb name ""); reflexivity.
  - intros config configuration H. unfold constructor. simpl. rewrite H.
    reflexivity.
  - intros this fuel sqlQuery w. unfold query, bind, sendStartQueryExecution, settle.
    destruct (submissions w) as [|[e|output] submitted]; simpl;
      try (exists []; split; [reflexivity|constructor]).
    match goal with
    | |- context [checkQueryExequtionStateAndGetData fuel ?id ?w1] =>
        destruct (checkQueryExequtionStateAndGetData_trace fuel id w1)
          as (added & Htrace & Hadded)
    end.
    exists added. simpl in Htrace. rewrite Htrace, <- app_assoc.
    split; [reflexivity|assumption].
Qed.

Lemma constructor_defaults_and_query_submission_witness :
  workGroup (constructor {| config_Database := "logs";
                            config_Catalog := "AwsDataCatalog";
                            config_WorkGroup := None;
                            config_ResultReuseConfiguration := None |})
  = "primary"
  /\ workGroup (constructor {| config_Database := "logs";
                               config_Catalog := "AwsDataCatalog";
                               config_WorkGroup := Some "analytics";
                               config_ResultReuseConfiguration := None |})
     = "analytics".
Proof.
  split.
  - apply (proj1 (proj2 constructor_defaults_and_query_submission)).
    reflexivity.
  - apply (proj1 (proj2 (proj2 (proj2 constructor_defaults_and_query_submission)))
             _ "analytics").
    reflexivity.
Defined.

(** C9 as stated fails: the empty string given as workgroup does not
    replace the default. *)
Lemma constructor_empty_workGroup_keeps_primary :
  let config := {| config_Database := "logs"; config_Catalog := "AwsDataCatalog";
                   config_WorkGroup := Some "";
                   config_ResultReuseConfiguration := None |} in
  config_WorkGroup config = Some ""
  /\ workGroup (constructor config) <> ""
  /\ workGroup (constructor config) = "primary".
Proof. simpl. repeat split. discriminate. Qed.

(** * Rejections of the service *)

Lemma query_rejected_submission_run (this : AthenaQueryClient) (fuel : nat)
    (sqlQuery : string) (w : World) (e : Exception)
    (submitted : list (Exception + StartQueryExecutionOutput)) :
  submissions w = inl e :: submitted ->
  query this fuel sqlQuery w
  = (Thrown e,
     {| submissions := submitted; executions := executions w;
        results := results w;
        trace := trace w
                 ++ [Sent (StartQueryExecutionCommand (submission this sqlQuery))] |}).
Proof.
  intros Hsub. unfold query, bind, sendStartQueryExecution. rewrite Hsub.
  reflexivity.
Qed.

Lemma fetchPages_rejected (pages : list GetQueryResultsOutput) :
  forall (fuel : nat) (id : string) (nextToken : option string)
         (allRows : list Row) (w : World) (e : Exception)
         (rest : list (Exception + GetQueryResultsOutput)),
    Forall (fun page => truthy (NextToken page) = true) pages ->
    results w = map inr pages ++ inl e :: rest ->
    length pages < fuel ->
    fetchPages fuel id nextToken allRows w
    = (Thrown e,
       {| submissions := submissions w; executions := executions w;
          results := rest;
          trace := trace w
                   ++ fetches id (requestToken nextToken :: map NextToken pages) |}).
Proof.
  induction pages as [|page pages IH];
    intros fuel id nextToken allRows w e rest Hpages Hresults Hfuel;
    (destruct fuel as [|fuel]; [simpl in Hfuel; lia|]);
    simpl in Hresults, Hfuel; simpl; unfold bind.
  - unfold sendGetQueryResults. rewrite Hresults. reflexivity.
  - rewrite (sendGetQueryResults_output _ _ _ _ _ Hresults).
    inversion Hpages as [|? ? Hpage Hpages']; subst.
    rewrite Hpage.
    erewrite IH; [|exact Hpages'|reflexivity|lia].
    simpl. unfold requestToken at 2. rewrite Hpage.
    rewrite <- !app_assoc. reflexivity.
Qed.

(** X1: when the service rejects the submission, [query] throws that very
    exception, whatever the fuel, having sent the submission and nothing
    else: no status query, no wait, no fetch, and the scripted statuses and
    pages are untouched. *)
Theorem query_rejected_submission (this : AthenaQueryClient) (fuel : nat)
    (sqlQuery : string) (w : World) (e : Exception)
    (submitted : list (Exception + StartQueryExecutionOutput))
    (Hsub : submissions w = inl e :: submitted) :
  fst (query this fuel sqlQuery w) = Thrown e
  /\ trace (snd (query this fuel sqlQuery w))
     = trace w ++ [Sent (StartQueryExecutionCommand (submission this sqlQuery))]
  /\ executions (snd (query this fuel sqlQuery w)) = executions w
  /\ results (snd (query this fuel sqlQuery w)) = results w.
Proof.
  rewrite (query_rejected_submission_run this fuel sqlQuery w e submitted Hsub).
  repeat split.
Qed.

Lemma query_rejected_submission_witness :
  fst (query client 0 "SELECT 1"
         {| submissions := [inl (ServiceException "ThrottlingException" "slow down")];
            executions := [inr (status SUCCEEDED None)];
            results := []; trace := [] |})
  = Thrown (ServiceException "ThrottlingException" "slow down").
Proof.
  apply (query_rejected_submission client 0 "SELECT 1"
           {| submissions := [inl (ServiceException "ThrottlingException" "slow down")];
              executions := [inr (status SUCCEEDED None)];
              results := []; trace := [] |}
           (ServiceException "ThrottlingException" "slow down") [] eq_refl).
Defined.

(** X2: when a status query is rejected after a run of non-terminal
    observations, [query] throws that very exception right after the
    rejected query: it does not wait again, does not poll again and fetches
    no page. *)
Theorem query_rejected_status
    (this : AthenaQueryClient) (fuel : nat) (sqlQuery : string) (w : World)
    (output : StartQueryExecutionOutput)
    (submitted : list (Exception + StartQueryExecutionOutput))
    (pending : list GetQueryExecutionOutput) (e : Exception)
    (rest : list (Exception + GetQueryExecutionOutput))
    (Hsub : submissions w = inr output :: submitted)
    (Hpending : Forall (fun response => nonTerminal (State response) = true) pending)
    (Hexec : executions w = map inr pending ++ inl e :: rest)
    (Hfuel : length pending < fuel) :
  query this fuel sqlQuery w
  = (Thrown e,
     {| submissions := submitted; executions := rest; results := results w;
        trace := trace w
                 ++ [Sent (StartQueryExecutionCommand (submission this sqlQuery))]
                 ++ waits (QueryExecutionId output) (length pending)
                 ++ [Sent (GetQueryExecutionCommand (QueryExecutionId output))] |}).
Proof.
  rewrite (query_submitted this fuel sqlQuery w output submitted Hsub).
  replace fuel with (length pending + S (fuel - length pending - 1)) by lia.
  erewrite (poll_waits pending); [|exact Hpending|exact Hexec].
  simpl. unfold bind, sendGetQueryExecution. simpl.
  rewrite <- !app_assoc. reflexivity.
Qed.

Lemma query_rejected_status_witness :
  query client 2 "SELECT 1"
    (scripted [inr (status QUEUED None);
               inl (ServiceException "InternalServerException" "oops");
               inr (status SUCCEEDED None)] [])
  = (Thrown (ServiceException "InternalServerException" "oops"),
     {| submissions := []; executions := [inr (status SUCCEEDED None)];
        results := [];
        trace := [Sent (StartQueryExecutionCommand (submission client "SELECT 1"));
                  Sent (GetQueryExecutionCommand "q-1"); Timeout 1000;
                  Sent (GetQueryExecutionCommand "q-1")] |}).
Proof.
  apply (query_rejected_status client 2 "SELECT 1"
           (scripted [inr (status QUEUED None);
                      inl (ServiceException "InternalServerException" "oops");
                      inr (status SUCCEEDED None)] [])
           {| QueryExecutionId := "q-1" |} [] [status QUEUED None]
           (ServiceException "InternalServerException" "oops")
           [inr (status SUCCEEDED None)]
           eq_refl ltac:(repeat constructor) eq_refl ltac:(simpl; lia)).
Defined.

(** X3: when a page fetch is rejected after some pages were fetched,
    [getQueryResults] throws that very exception and returns none of the
    rows fetched so far; it has sent one request per page received plus the
    rejected one. *)
Theorem getQueryResults_rejected_fetch
    (pages : list GetQueryResultsOutput) (e : Exception)
    (rest : list (Exception + GetQueryResultsOutput))
    (fuel : nat) (id : string) (w : World)
    (Hpages : Forall (fun page => truthy (NextToken page) = true) pages)
    (Hresults : results w = map inr pages ++ inl e :: rest)
    (Hfuel : length pages < fuel) :
  getQueryResults fuel id w
  = (Thrown e,
     {| submissions := submissions w; executions := executions w;
        results := rest;
        trace := trace w ++ fetches id (None :: map NextToken pages) |}).
Proof.
  unfold getQueryResults, bind.
  rewrite (fetchPages_rejected pages fuel id None [] w e rest Hpages Hresults Hfuel).
  reflexivity.
Qed.

Lemma getQueryResults_rejected_fetch_witness :
  getQueryResults 2 "q-1"
    (scripted [] [inr (page [row [cell "a"]; row [cell "1"]] (Some "t1"));
                  inl (ServiceException "ThrottlingException" "slow down")])
  = (Thrown (ServiceException "ThrottlingException" "slow down"),
     {| submissions := [inr {| QueryExecutionId := "q-1" |}];
        executions := []; results := [];
        trace := [Sent (GetQueryResultsCommand "q-1" None);
                  Sent (GetQueryResultsCommand "q-1" (Some "t1"))] |}).
Proof.
  apply (getQueryResults_rejected_fetch
           [page [row [cell "a"]; row [cell "1"]] (Some "t1")]
           (ServiceException "ThrottlingException" "slow down") [] 2 "q-1"
           (scripted [] [inr (page [row [cell "a"]; row [cell "1"]] (Some "t1"));
                         inl (ServiceException "ThrottlingException" "slow down")])
           ltac:(repeat constructor) eq_refl ltac:(simpl; lia)).
Defined.

(** * A query from submission to records *)

Lemma getQueryResults_pages
    (pages : list GetQueryResultsOutput) (lastPage : GetQueryResultsOutput)
    (rest : list (Exception + GetQueryResultsOutput))
    (fuel : nat) (id : string) (w : World) :
  Forall (fun page => truthy (NextToken page) = true) pages ->
  truthy (NextToken lastPage) = false ->
  results w = map inr (pages ++ [lastPage]) ++ rest ->
  length pages < fuel ->
  getQueryResults fuel id w
  = (match mapData (concat (map rowsOf (pages ++ [lastPage]))) with
     | inr mappedData => Returned mappedData
     | inl e => Thrown e
     end,
     {| submissions := submissions w; executions := executions w;
        results := rest;
        trace := trace w ++ fetches id (None :: map NextToken pages) |}).
Proof.
  intros Hpages Hlast Hresults Hfuel. unfold getQueryResults, bind.
  rewrite (fetchPages_pages pages fuel id None [] w lastPage rest
             Hpages Hlast Hresults Hfuel).
  simpl. destruct (mapData _); reflexivity.
Qed.

Lemma query_succeeded_run
    (this : AthenaQueryClient) (fuel : nat) (sqlQuery : string) (w : World)
    (output : StartQueryExecutionOutput)
    (submitted : list (Exception + StartQueryExecutionOutput))
    (pending : list GetQueryExecutionOutput) (terminal : GetQueryExecutionOutput)
    (rest : list (Exception + GetQueryExecutionOutput))
    (pages : list GetQueryResultsOutput) (lastPage : GetQueryResultsOutput)
    (restPages : list (Exception + GetQueryResultsOutput)) :
  submissions w = inr output :: submitted ->
  Forall (fun response => nonTerminal (State response) = true) pending ->
  executions w = map inr pending ++ inr terminal :: rest ->
  State terminal = SUCCEEDED ->
  Forall (fun page => truthy (NextToken page) = true) pages ->
  truthy (NextToken lastPage) = false ->
  results w = map inr (pages ++ [lastPage]) ++ restPages ->
  length pending + length pages + 1 < fuel ->
  query this fuel sqlQuery w
  = (match mapData (concat (map rowsOf (pages ++ [lastPage]))) with
     | inr mappedData => Returned mappedData
     | inl e => Thrown e
     end,
     {| submissions := submitted; executions := rest; results := restPages;
        trace := trace w
                 ++ [Sent (StartQueryExecutionCommand (submission this sqlQuery))]
                 ++ waits (QueryExecutionId output) (length pending)
                 ++ [Sent (GetQueryExecutionCommand (QueryExecutionId output))]
                 ++ fetches (QueryExecutionId output) (None :: map NextToken pages) |}).
Proof.
  intros Hsub Hpending Hexec Hstate Hpages Hlast Hresults Hfuel.
  rewrite (query_submitted this fuel sqlQuery w output submitted Hsub).
  erewrite (poll_terminal pending terminal rest fuel);
    [|exact Hpending|exact Hexec|lia].
  rewrite Hstate.
  erewrite (getQueryResults_pages pages lastPage restPages);
    [|exact Hpages|exact Hlast|exact Hresults|lia].
  simpl. rewrite <- !app_assoc. reflexivity.
Qed.

(** X4: from submission to records.  When the submission is accepted, the
    execution is seen pending some times and then SUCCEEDED, and the pages
    arrive with truthy tokens up to a last page without one, [query]
    returns one object per row after the very first row of the first
    non-empty page, all of them keyed by that first row, whatever page a row
    arrived in; its trace is the submission, the waits, the last status
    query and one fetch per page, and it consumes exactly these responses. *)
Theorem query_succeeded_end_to_end
    (this : AthenaQueryClient) (fuel : nat) (sqlQuery : string) (w : World)
    (output : StartQueryExecutionOutput)
    (submitted : list (Exception + StartQueryExecutionOutput))
    (pending : list GetQueryExecutionOutput) (terminal : GetQueryExecutionOutput)
    (rest : list (Exception + GetQueryExecutionOutput))
    (pages : list GetQueryResultsOutput) (lastPage : GetQueryResultsOutput)
    (restPages : list (Exception + GetQueryResultsOutput))
    (header : Row) (rows : list Row)
    (Hsub : submissions w = inr output :: submitted)
    (Hpending : Forall (fun response => nonTerminal (State response) = true) pending)
    (Hexec : executions w = map inr pending ++ inr terminal :: rest)
    (Hstate : State terminal = SUCCEEDED)
    (Hpages : Forall (fun page => truthy (NextToken page) = true) pages)
    (Hlast : truthy (NextToken lastPage) = false)
    (Hresults : results w = map inr (pages ++ [lastPage]) ++ restPages)
    (Hrows : concat (map rowsOf (pages ++ [lastPage])) = header :: rows)
    (Hfuel : length pending + length pages + 1 < fuel) :
  query this fuel sqlQuery w
  = (Returned (map (mapItem (map VarCharValue (Data header))) rows),
     {| submissions := submitted; executions := rest; results := restPages;
        trace := trace w
                 ++ [Sent (StartQueryExecutionCommand (submission this sqlQuery))]
                 ++ waits (QueryExecutionId output) (length pending)
                 ++ [Sent (GetQueryExecutionCommand (QueryExecutionId output))]
                 ++ fetches (QueryExecutionId output) (None :: map NextToken pages) |}).
Proof.
  rewrite (query_succeeded_run this fuel sqlQuery w output submitted pending
             terminal rest pages lastPage restPages
             Hsub Hpending Hexec Hstate Hpages Hlast Hresults Hfuel).
  rewrite Hrows, mapData_cons. reflexivity.
Qed.

Lemma query_succeeded_end_to_end_witness :
  query client 5 "SELECT a FROM t"
    (scripted [inr (status QUEUED None); inr (status RUNNING None);
               inr (status SUCCEEDED None)]
              [inr (page [row [cell "a"]; row [cell "1"]] (Some "t1"));
               inr (page [row [cell "2"]] None)])
  = (Returned [ {[ "a" := "1" ]}; {[ "a" := "2" ]} ],
     {| submissions := []; executions := []; results := [];
        trace := [Sent (StartQueryExecutionCommand (submission client "SELECT a FROM t"));
                  Sent (GetQueryExecutionCommand "q-1"); Timeout 1000;
                  Sent (GetQueryExecutionCommand "q-1"); Timeout 1000;
                  Sent (GetQueryExecutionCommand "q-1");
                  Sent (GetQueryResultsCommand "q-1" None);
                  Sent (GetQueryResultsCommand "q-1" (Some "t1"))] |}).
Proof.
  apply (query_succeeded_end_to_end client 5 "SELECT a FROM t"
           (scripted [inr (status QUEUED None); inr (status RUNNING None);
                      inr (status SUCCEEDED None)]
                     [inr (page [row [cell "a"]; row [cell "1"]] (Some "t1"));
                      inr (page [row [cell "2"]] None)])
           {| QueryExecutionId := "q-1" |} []
           [status QUEUED None; status RUNNING None] (status SUCCEEDED None) []
           [page [row [cell "a"]; row [cell "1"]] (Some "t1")]
           (page [row [cell "2"]] None) []
           (row [cell "a"]) [row [cell "1"]; row [cell "2"]]
           eq_refl ltac:(repeat constructor) eq_refl eq_refl
           ltac:(repeat constructor) eq_refl eq_refl eq_refl ltac:(simpl; lia)).
Defined.

Lemma concat_no_rows (pages : list GetQueryResultsOutput) :
  Forall (fun page => rowsOf page = []) pages ->
  concat (map rowsOf pages) = [].
Proof.
  induction 1 as [|p ps Hp _ IH]; simpl; [reflexivity|].
  rewrite Hp, IH. reflexivity.
Qed.

(** X5: a succeeded execution whose pages hold no row at all (no result
    set, no rows, or empty rows in every page) makes [query] throw the
    runtime's TypeError after all pages were fetched: there is no header
    row to read. *)
Theorem query_succeeded_without_rows
    (this : AthenaQueryClient) (fuel : nat) (sqlQuery : string) (w : World)
    (output : StartQueryExecutionOutput)
    (submitted : list (Exception + StartQueryExecutionOutput))
    (pending : list GetQueryExecutionOutput) (terminal : GetQueryExecutionOutput)
    (rest : list (Exception + GetQueryExecutionOutput))
    (pages : list GetQueryResultsOutput) (lastPage : GetQueryResultsOutput)
    (restPages : list (Exception + GetQueryResultsOutput))
    (Hsub : submissions w = inr output :: submitted)
    (Hpending : Forall (fun response => nonTerminal (State response) = true) pending)
    (Hexec : executions w = map inr pending ++ inr terminal :: rest)
    (Hstate : State terminal = SUCCEEDED)
    (Hpages : Forall (fun page => truthy (NextToken page) = true) pages)
    (Hlast : truthy (NextToken lastPage) = false)
    (Hresults : results w = map inr (pages ++ [lastPage]) ++ restPages)
    (Hrows : Forall (fun page => rowsOf page = []) (pages ++ [lastPage]))
    (Hfuel : length pending + length pages + 1 < fuel) :
  fst (query this fuel sqlQuery w) = Thrown TypeError
  /\ results (snd (query this fuel sqlQuery w)) = restPages.
Proof.
  rewrite (query_succeeded_run this fuel sqlQuery w output submitted pending
             terminal rest pages lastPage restPages
             Hsub Hpending Hexec Hstate Hpages Hlast Hresults Hfuel).
  rewrite (concat_no_rows _ Hrows). split; reflexivity.
Qed.

Lemma query_succeeded_without_rows_witness :
  fst (query client 3 "CREATE TABLE t (a int)"
         (scripted [inr (status SUCCEEDED None)]
                   [inr {| output_ResultSet := None; NextToken := None |}]))
  = Thrown TypeError.
Proof.
  apply (query_succeeded_without_rows client 3 "CREATE TABLE t (a int)"
           (scripted [inr (status SUCCEEDED None)]
                     [inr {| output_ResultSet := None; NextToken := None |}])
           {| QueryExecutionId := "q-1" |} [] [] (status SUCCEEDED None) []
           [] {| output_ResultSet := None; NextToken := None |} []
           eq_refl ltac:(constructor) eq_refl eq_refl
           ltac:(constructor) eq_refl eq_refl ltac:(repeat constructor)
           ltac:(simpl; lia)).
Defined.

(** X6: how the service cuts the rows into pages does not matter: two
    complete page sequences with the same rows in the same order make
    [getQueryResults] end the same way, with the same objects or the same
    exception. *)
Theorem getQueryResults_page_boundaries_irrelevant
    (pages1 pages2 : list GetQueryResultsOutput)
    (lastPage1 lastPage2 : GetQueryResultsOutput)
    (rest1 rest2 : list (Exception + GetQueryResultsOutput))
    (fuel1 fuel2 : nat) (id1 id2 : string) (w1 w2 : World)
    (Hpages1 : Forall (fun page => truthy (NextToken page) = true) pages1)
    (Hpages2 : Forall (fun page => truthy (NextToken page) = true) pages2)
    (Hlast1 : truthy (NextToken lastPage1) = false)
    (Hlast2 : truthy (NextToken lastPage2) = false)
    (Hresults1 : results w1 = map inr (pages1 ++ [lastPage1]) ++ rest1)
    (Hresults2 : results w2 = map inr (pages2 ++ [lastPage2]) ++ rest2)
    (Hfuel1 : length pages1 < fuel1)
    (Hfuel2 : length pages2 < fuel2)
    (Hsame : concat (map rowsOf (pages1 ++ [lastPage1]))
             = concat (map rowsOf (pages2 ++ [lastPage2]))) :
  fst (getQueryResults fuel1 id1 w1) = fst (getQueryResults fuel2 id2 w2).
Proof.
  rewrite (getQueryResults_pages pages1 lastPage1 rest1 fuel1 id1 w1
             Hpages1 Hlast1 Hresults1 Hfuel1).
  rewrite (getQueryResults_pages pages2 lastPage2 rest2 fuel2 id2 w2
             Hpages2 Hlast2 Hresults2 Hfuel2).
  simpl. rewrite Hsame. reflexivity.
Qed.

Lemma getQueryResults_page_boundaries_irrelevant_witness :
  fst (getQueryResults 3 "q-1"
         (scripted [] [inr (page [row [cell "a"]] (Some "t1"));
                       inr (page [] (Some "t2"));
                       inr (page [row [cell "1"]; row [cell "2"]] None)]))
  = fst (getQueryResults 1 "q-2"
           (scripted [] [inr (page [row [cell "a"]; row [cell "1"]; row [cell "2"]]
                                None)])).
Proof.
  apply (getQueryResults_page_boundaries_irrelevant
           [page [row [cell "a"]] (Some "t1"); page [] (Some "t2")] []
           (page [row [cell "1"]; row [cell "2"]] None)
           (page [row [cell "a"]; row [cell "1"]; row [cell "2"]] None)
           [] [] 3 1 "q-1" "q-2"
           (scripted [] [inr (page [row [cell "a"]] (Some "t1"));
                         inr (page [] (Some "t2"));
                         inr (page [row [cell "1"]; row [cell "2"]] None)])
           (scripted [] [inr (page [row [cell "a"]; row [cell "1"]; row [cell "2"]]
                                None)])
           ltac:(repeat constructor) ltac:(constructor) eq_refl eq_refl
           eq_refl eq_refl ltac:(simpl; lia) ltac:(simpl; lia) eq_refl).
Defined.

(** X7: when the execution reaches FAILED and the service gives no reason,
    the message of the thrown Error ends in the word undefined. *)
Theorem query_failed_without_reason
    (this : AthenaQueryClient) (fuel : nat) (sqlQuery : string) (w : World)
    (output : StartQueryExecutionOutput)
    (submitted : list (Exception + StartQueryExecutionOutput))
    (pending : list GetQueryExecutionOutput) (terminal : GetQueryExecutionOutput)
    (rest : list (Exception + GetQueryExecutionOutput))
    (Hsub : submissions w = inr output :: submitted)
    (Hpending : Forall (fun response => nonTerminal (State response) = true) pending)
    (Hexec : executions w = map inr pending ++ inr terminal :: rest)
    (Hstate : State terminal = FAILED)
    (Hreason : StateChangeReason terminal = None)
    (Hfuel : length pending < fuel) :
  fst (query this fuel sqlQuery w) = Thrown (Error "Query failed: undefined").
Proof.
  rewrite (query_submitted this fuel sqlQuery w output submitted Hsub).
  erewrite (poll_terminal pending terminal rest fuel);
    [|exact Hpending|exact Hexec|exact Hfuel].
  rewrite Hstate, Hreason. reflexivity.
Qed.

Lemma query_failed_without_reason_witness :
  fst (query client 1 "SELECT 1" (scripted [inr (status FAILED None)] []))
  = Thrown (Error "Query failed: undefined").
Proof.
  apply (query_failed_without_reason client 1 "SELECT 1"
           (scripted [inr (status FAILED None)] [])
           {| QueryExecutionId := "q-1" |} [] [] (status FAILED None) []
           eq_refl ltac:(constructor) eq_refl eq_refl eq_refl ltac:(simpl; lia)).
Defined.

(** * Time and shape of the trace *)

Lemma waited_app (events1 events2 : list Event) :
  waited (events1 ++ events2) = (waited events1 + waited events2)%Z.
Proof.
  induction events1 as [|[command|msTime] events1 IH]; simpl; lia.
Qed.

Lemma waited_waits (id : string) (n : nat) :
  waited (waits id n) = (1000 * Z.of_nat n)%Z.
Proof.
  induction n as [|n IH]; [reflexivity|].
  unfold waits in *. simpl. rewrite IH. lia.
Qed.

Lemma waited_fetches (id : string) (tokens : list (option string)) :
  waited (fetches id tokens) = 0%Z.
Proof. induction tokens as [|token tokens IH]; simpl; [reflexivity|exact IH]. Qed.

(** X8: polling through k non-terminal observations up to a terminal one
    suspends the client for 1000 ms times k in total, whatever the terminal
    state and whatever the pages fetched afterwards. *)
Theorem checkQueryExequtionStateAndGetData_waits_1000_per_pending
    (pending : list GetQueryExecutionOutput) (terminal : GetQueryExecutionOutput)
    (rest : list (Exception + GetQueryExecutionOutput))
    (fuel : nat) (id : string) (w : World)
    (Hpending : Forall (fun response => nonTerminal (State response) = true) pending)
    (Hterminal : nonTerminal (State terminal) = false)
    (Hexec : executions w = map inr pending ++ inr terminal :: rest)
    (Hfuel : length pending < fuel) :
  waited (trace (snd (checkQueryExequtionStateAndGetData fuel id w)))
  = (waited (trace w) + 1000 * Z.of_nat (length pending))%Z.
Proof.
  rewrite (poll_terminal pending terminal rest fuel id w Hpending Hexec Hfuel).
  destruct (State terminal); try discriminate; simpl.
  - match goal with
    | |- context [getQueryResults ?f id ?w1] =>
        destruct (getQueryResults_trace f id w1) as (tokens & Htrace)
    end.
    rewrite Htrace. simpl.
    rewrite !waited_app, waited_waits, waited_fetches. simpl. lia.
  - rewrite !waited_app, waited_waits. simpl. lia.
  - rewrite !waited_app, waited_waits. simpl. lia.
Qed.

Lemma checkQueryExequtionStateAndGetData_waits_1000_per_pending_witness :
  waited (trace (snd (checkQueryExequtionStateAndGetData 4 "q-1"
                        (scripted [inr (status QUEUED None); inr (status RUNNING None);
                                   inr (status RUNNING None);
                                   inr (status SUCCEEDED None)]
                                  [inr (page [row [cell "a"]] None)]))))
  = 3000%Z.
Proof.
  apply (checkQueryExequtionStateAndGetData_waits_1000_per_pending
           [status QUEUED None; status RUNNING None; status RUNNING None]
           (status SUCCEEDED None) [] 4 "q-1"
           (scripted [inr (status QUEUED None); inr (status RUNNING None);
                      inr (status RUNNING None); inr (status SUCCEEDED None)]
                     [inr (page [row [cell "a"]] None)])
           ltac:(repeat constructor) eq_refl eq_refl ltac:(simpl; lia)).
Defined.


Lemma fetchPages_step (fuel : nat) (id : string) (nextToken : option string)
    (allRows : list Row) :
  fetchPages (S fuel) id nextToken allRows
  = (output <- sendGetQueryResults id (requestToken nextToken) ;;
     if truthy (NextToken output)
     then fetchPages fuel id (NextToken output) (allRows ++ rowsOf output)
     else ret (allRows ++ rowsOf output)).
Proof. reflexivity. Qed.

Lemma fetchPages_requests (fuel : nat) :
  forall (id : string) (nextToken : option string) (allRows : list Row) (w : World),
    exists pages remaining,
      results w = map inr pages ++ remaining
      /\ Forall (fun page => truthy (NextToken page) = true) pages
      /\ trace (snd (fetchPages (S fuel) id nextToken allRows w))
         = trace w ++ fetches id (requestToken nextToken :: map NextToken pages).
Proof.
  induction fuel as [|fuel IH]; intros id nextToken allRows w;
    rewrite fetchPages_step; unfold bind, sendGetQueryResults, settle;
    destruct (results w) as [|[e|page] rest] eqn:Hresults;
    cbn -[fetchPages requestToken fetches].
  - exists [], []. auto.
  - exists [], (inl e :: rest). auto.
  - exists [], (inr page :: rest).
    destruct (truthy (NextToken page)); simpl; auto.
  - exists [], []. auto.
  - exists [], (inl e :: rest). auto.
  - destruct (truthy (NextToken page)) eqn:Hpage.
    + match goal with
      | |- context [fetchPages (S fuel) id ?t ?r ?w1] =>
          destruct (IH id t r w1) as (pages & remaining & Hrest & Hpages & Htrace)
      end.
      simpl in Hrest. exists (page :: pages), remaining.
      split; [simpl; rewrite Hrest; reflexivity|].
      split; [constructor; assumption|].
      rewrite Htrace. simpl. unfold requestToken at 2. rewrite Hpage.
      rewrite <- app_assoc. reflexivity.
    + exists [], (inr page :: rest). simpl. auto.
Qed.

(** X10: whatever the service answers, the first page request of
    [getQueryResults] carries no token and every later request carries the
    token of the page received just before, which is never the empty
    string. *)
Theorem getQueryResults_requests (fuel : nat) (id : string) (w : World)
    (Hfuel : 0 < fuel) :
  exists pages remaining,
    results w = map inr pages ++ remaining
    /\ Forall (fun page => truthy (NextToken page) = true) pages
    /\ trace (snd (getQueryResults fuel id w))
       = trace w ++ fetches id (None :: map NextToken pages).
Proof.
  destruct fuel as [|fuel]; [lia|].
  destruct (fetchPages_requests fuel id None [] w)
    as (pages & remaining & Hresults & Hpages & Htrace).
  exists pages, remaining. split; [exact Hresults|]. split; [exact Hpages|].
  unfold getQueryResults, bind.
  destruct (fetchPages (S fuel) id None [] w) as [[rows| |] w1]; simpl in *;
    try assumption.
  destruct (mapData rows); assumption.
Qed.

Lemma getQueryResults_requests_witness :
  exists pages remaining,
    results (scripted [] [inr (page [row [cell "a"]] (Some "t1"));
                          inr (page [] (Some ""));
                          inr (page [row [cell "1"]] None)])
    = map inr pages ++ remaining
    /\ Forall (fun page => truthy (NextToken page) = true) pages
    /\ trace (snd (getQueryResults 5 "q-1"
                     (scripted [] [inr (page [row [cell "a"]] (Some "t1"));
                                   inr (page [] (Some ""));
                                   inr (page [row [cell "1"]] None)])))
       = [] ++ fetches "q-1" (None :: map NextToken pages).
Proof.
  apply (getQueryResults_requests 5 "q-1"
           (scripted [] [inr (page [row [cell "a"]] (Some "t1"));
                         inr (page [] (Some ""));
                         inr (page [row [cell "1"]] None)])).
  lia.
Defined.

(** * More on the row mapper *)

(** A field of the result either was there before, untouched, or holds the
    string of the last cell stored under its name. *)
Lemma forEach_setField_value (columns : list (option string)) (cells : list Datum) :
  forall (i : nat) (o : MappedObject) (k v : string),
    forEach_from (setField columns) i cells o !! k = Some v ->
    (o !! k = Some v
     /\ forall n, n < length cells ->
                  toPropertyKey (column columns (i + n)) = k -> k = "__proto__")
    \/ exists n value,
        cells !! n = Some value
        /\ toPropertyKey (column columns (i + n)) = k
        /\ v = valueOrEmpty value
        /\ forall n', n < n' < length cells ->
                      toPropertyKey (column columns (i + n')) <> k.
Proof.
  induction cells as [|c rest IH]; intros i o k v Hlookup; simpl in *.
  - left. split; [exact Hlookup|]. intros n Hn. lia.
  - apply IH in Hlookup as [[Hbefore Hnone]|(n & value & Hn & Hk & Hv & Hlater)].
    + rewrite setField_assign in Hbefore.
      destruct (decide (toPropertyKey (column columns i) = k)) as [Heq|Hne].
      * destruct (decide (k = "__proto__")) as [Hp|Hp].
        -- left. rewrite assign_proto in Hbefore by congruence.
           split; [exact Hbefore|]. intros; exact Hp.
        -- right. exists 0, c. rewrite Nat.add_0_r.
           rewrite Heq, assign_lookup_eq in Hbefore by exact Hp.
           injection Hbefore as <-.
           repeat split; [exact Heq|].
           intros n' Hn' Hk. apply Hp. destruct n' as [|n']; [lia|].
           apply (Hnone n'); [lia|].
           replace (S i + n') with (i + S n') by lia. exact Hk.
      * left. rewrite assign_lookup_ne in Hbefore by exact Hne.
        split; [exact Hbefore|].
        intros [|n] Hn Hk; [rewrite Nat.add_0_r in Hk; contradiction|].
        apply (Hnone n); [lia|].
        replace (S i + n) with (i + S n) by lia. exact Hk.
    + right. exists (S n), value.
      replace (i + S n) with (S i + n) by lia.
      repeat split; try assumption.
      intros n' Hn'. destruct n' as [|n']; [lia|].
      replace (i + S n') with (S i + n') by lia. apply Hlater. lia.
Qed.

(** X11: every field of every object returned by [mapData] comes from a
    cell of the data row at the same index: it is named by the header
    position of that cell, which is the last position of the row with that
    name, and its value is the cell's value, or the empty string for an
    absent cell.  Nothing is invented and no value crosses rows. *)
Theorem mapData_fields_come_from_cells
    (header : Row) (rows : list Row) (mappedData : list MappedObject)
    (j : nat) (mappedObject : MappedObject) (k v : string)
    (Hmap : mapData (header :: rows) = inr mappedData)
    (Hobject : mappedData !! j = Some mappedObject)
    (Hfield : mappedObject !! k = Some v) :
  exists item i value,
    rows !! j = Some item
    /\ Data item !! i = Some value
    /\ fieldName header i = k
    /\ v = valueOrEmpty value
    /\ forall i', i < i' < length (Data item) -> fieldName header i' <> k.
Proof.
  rewrite mapData_cons in Hmap. injection Hmap as <-.
  rewrite list_lookup_fmap in Hobject.
  destruct (rows !! j) as [item|] eqn:Hitem; [|discriminate].
  simpl in Hobject. injection Hobject as <-.
  unfold mapItem, forEach in Hfield.
  apply forEach_setField_value in Hfield
    as [[Hempty _]|(i & value & Hi & Hk & Hv & Hlater)].
  - rewrite lookup_empty in Hempty. discriminate.
  - exists item, i, value. simpl in Hk, Hlater. auto.
Qed.

Lemma mapData_fields_come_from_cells_witness :
  exists item i value,
    [row [cell "1"; absent]] !! 0 = Some item
    /\ Data item !! i = Some value
    /\ fieldName (row [cell "a"; cell "b"]) i = "b"
    /\ "" = valueOrEmpty value
    /\ forall i', i < i' < length (Data item) ->
                  fieldName (row [cell "a"; cell "b"]) i' <> "b".
Proof.
  apply (mapData_fields_come_from_cells (row [cell "a"; cell "b"])
           [row [cell "1"; absent]]
           [ {[ "a" := "1"; "b" := "" ]} ] 0 {[ "a" := "1"; "b" := "" ]} "b" "").
  - vm_compute. reflexivity.
  - reflexivity.
  - vm_compute. reflexivity.
Defined.

Lemma forEach_setField_same_strings (columns : list (option string))
    (cells : list Datum) :
  forall (cells' : list Datum) (i : nat) (o : MappedObject),
    map valueOrEmpty cells = map valueOrEmpty cells' ->
    forEach_from (setField columns) i cells o
    = forEach_from (setField columns) i cells' o.
Proof.
  induction cells as [|c rest IH]; intros [|c' rest'] i o Hsame;
    simpl in *; try discriminate; [reflexivity|].
  injection Hsame as Hc Hrest.
  rewrite !setField_assign, Hc. apply IH. exact Hrest.
Qed.

(** X12: [mapData] does not tell a cell holding the empty string from an
    absent cell: data rows that agree cell by cell up to this give the same
    objects. *)
Theorem mapData_empty_string_like_absent
    (header : Row) (rows rows' : list Row)
    (Hsame : Forall2 (fun item item' =>
                        map valueOrEmpty (Data item) = map valueOrEmpty (Data item'))
               rows rows') :
  mapData (header :: rows) = mapData (header :: rows').
Proof.
  rewrite !mapData_cons. f_equal.
  induction Hsame as [|item item' rows rows' Hitem _ IH]; simpl; [reflexivity|].
  rewrite IH. f_equal. unfold mapItem, forEach.
  apply forEach_setField_same_strings. exact Hitem.
Qed.

Lemma mapData_empty_string_like_absent_witness :
  mapData [row [cell "a"; cell "b"]; row [cell ""; cell "2"]]
  = mapData [row [cell "a"; cell "b"]; row [absent; cell "2"]].
Proof.
  apply (mapData_empty_string_like_absent (row [cell "a"; cell "b"])
           [row [cell ""; cell "2"]] [row [absent; cell "2"]]).
  repeat constructor.
Defined.

Lemma forEach_setField_size_le (columns : list (option string)) (cells : list Datum) :
  forall (i : nat) (o : MappedObject),
    size (forEach_from (setField columns) i cells o) <= size o + length cells.
Proof.
  induction cells as [|c rest IH]; intros i o; simpl; [lia|].
  etransitivity; [apply IH|].
  rewrite setField_assign. unfold assign.
  destruct (String.eqb _ "__proto__"); [lia|].
  rewrite map_size_insert. destruct (o !! _); simpl; lia.
Qed.

Lemma forEach_setField_size_distinct (columns : list (option string))
    (cells : list Datum) :
  forall (i : nat) (o : MappedObject),
    NoDup (map (fun n => toPropertyKey (column columns n)) (seq i (length cells))) ->
    "__proto__" ∉ map (fun n => toPropertyKey (column columns n))
                      (seq i (length cells)) ->
    (forall n, n < length cells -> o !! toPropertyKey (column columns (i + n)) = None) ->
    size (forEach_from (setField columns) i cells o) = size o + length cells.
Proof.
  induction cells as [|c rest IH]; intros i o Hdistinct Hproto Hfresh;
    simpl in *; [lia|].
  apply NoDup_cons in Hdistinct as [Hhead Hdistinct].
  apply not_elem_of_cons in Hproto as [Hname Hproto].
  assert (Hi : toPropertyKey (column columns i) <> "__proto__") by congruence.
  rewrite IH.
  - rewrite setField_assign, assign_insert, map_size_insert_None; [lia| |exact Hi].
    specialize (Hfresh 0). rewrite Nat.add_0_r in Hfresh. apply Hfresh. lia.
  - exact Hdistinct.
  - exact Hproto.
  - intros n Hn. rewrite setField_assign, assign_lookup_ne.
    + replace (S i + n) with (i + S n) by lia. apply Hfresh. lia.
    + intros Heq. apply Hhead. rewrite Heq.
      apply list_elem_of_fmap. exists (S i + n). split; [reflexivity|].
      apply elem_of_seq. lia.
Qed.

(** X13: an object returned by [mapData] has at most as many fields as its
    data row has cells, and exactly as many when the names of the row's
    positions are pairwise distinct and none of them is __proto__; a
    repeated column name costs a field. *)
Theorem mapData_object_size
    (header : Row) (rows : list Row) (mappedData : list MappedObject)
    (j : nat) (item : Row) (mappedObject : MappedObject)
    (Hmap : mapData (header :: rows) = inr mappedData)
    (Hitem : rows !! j = Some item)
    (Hobject : mappedData !! j = Some mappedObject) :
  size mappedObject <= length (Data item)
  /\ (NoDup (map (fieldName header) (seq 0 (length (Data item)))) ->
      "__proto__" ∉ map (fieldName header) (seq 0 (length (Data item))) ->
      size mappedObject = length (Data item)).
Proof.
  rewrite mapData_cons in Hmap. injection Hmap as <-.
  rewrite list_lookup_fmap, Hitem in Hobject. simpl in Hobject.
  injection Hobject as <-. unfold mapItem, forEach. split.
  - etransitivity; [apply forEach_setField_size_le|].
    rewrite map_size_empty. lia.
  - intros Hdistinct Hproto. rewrite forEach_setField_size_distinct.
    + rewrite map_size_empty. lia.
    + exact Hdistinct.
    + exact Hproto.
    + intros n _. apply lookup_empty.
Qed.

Lemma mapData_object_size_witness :
  size ({[ "n" := "y" ]} : gmap string string) <= 2
  /\ size ({[ "a" := "1"; "b" := "2" ]} : gmap string string) = 2.
Proof.
  split.
  - apply (mapData_object_size (row [cell "n"; cell "n"])
             [row [cell "x"; cell "y"]]
             [ ({[ "n" := "y" ]} : gmap string string) ] 0
             (row [cell "x"; cell "y"])); vm_compute; reflexivity.
  - apply (mapData_object_size (row [cell "a"; cell "b"])
             [row [cell "1"; cell "2"]]
             [ ({[ "a" := "1"; "b" := "2" ]} : gmap string string) ] 0
             (row [cell "1"; cell "2"])).
    + vm_compute. reflexivity.
    + reflexivity.
    + reflexivity.
    + apply (bool_decide_unpack _). vm_compute. exact I.
    + apply (bool_decide_unpack _). vm_compute. exact I.
Defined.

(** * The constructed client *)

Lemma constructor_workGroup_truthy (config : AthenaQueryClientConfig) :
  workGroup (constructor config) <> "".
Proof.
  unfold constructor. simpl.
  destruct (config_WorkGroup config) as [name|]; [|discriminate].
  simpl. destruct (String.eqb_spec name ""); simpl; [discriminate|assumption].
Qed.

(** X14: whatever configuration a client was constructed from, the
    submission its [query] sends never carries an empty workgroup, and it
    carries the query string, the database and the catalog as they were
    given. *)
Theorem constructed_client_submits_nonempty_workGroup
    (config : AthenaQueryClientConfig) (fuel : nat) (sqlQuery : string) (w : World) :
  exists input later,
    trace (snd (query (constructor config) fuel sqlQuery w))
    = trace w ++ Sent (StartQueryExecutionCommand input) :: later
    /\ WorkGroup input <> ""
    /\ QueryString input = sqlQuery
    /\ input_QueryExecutionContext input
       = {| Database := config_Database config; Catalog := config_Catalog config |}.
Proof.
  exists (submission (constructor config) sqlQuery).
  assert (Htrace : exists later,
             trace (snd (query (constructor config) fuel sqlQuery w))
             = trace w
               ++ Sent (StartQueryExecutionCommand
                          (submission (constructor config) sqlQuery)) :: later).
  { unfold query, bind, sendStartQueryExecution, settle.
    destruct (submissions w) as [|[e|output] submitted]; simpl;
      try (exists []; reflexivity).
    match goal with
    | |- context [checkQueryExequtionStateAndGetData fuel ?id ?w1] =>
        destruct (checkQueryExequtionStateAndGetData_trace fuel id w1)
          as (added & Hadded & _)
    end.
    exists added. simpl in Hadded. rewrite Hadded, <- app_assoc. reflexivity. }
  destruct Htrace as (later & Htrace). exists later.
  split; [exact Htrace|]. split; [|split; reflexivity].
  apply constructor_workGroup_truthy.
Qed.
